(** * TradePulse: the market listener, the anomaly engine and the trade endpoint

    A shallow embedding of [backend/main.py].  Python floats are IEEE binary64
    numbers, here Rocq's primitive [float]; the module-level globals
    ([portfolio], [price_history], [manager]) and the outside world (the
    subscribers' transports, the upstream connection, the log, the table of
    trades) are the fields of one [world] record that every handler threads
    through a state-and-exception monad.  Each handler runs from start to end
    on its own: tasks taking turns at an [await] are outside the model. *)

From Stdlib Require Import List ZArith Lia String Ascii Bool Floats DecimalString.
Import ListNotations.

Local Open Scope string_scope.
Local Open Scope list_scope.

(** ** Exceptions *)

(** The exceptions the modelled code can meet.  [CancelledError] derives from
    [BaseException] only, so [except Exception] lets it through. *)
Inductive exn : Type :=
| ConnectionClosed                       (* ws.recv() on a closed connection *)
| JSONDecodeError                        (* json.loads *)
| TypeError
| KeyError (key : string)
| ValueError
| OverflowError
| SendError (ws : nat)                   (* send_json on a dead transport *)
| OSError                                (* websockets.connect refused *)
| HTTPException (status_code : Z) (detail : string)
| CancelledError.

Definition is_Exception (e : exn) : bool :=
  match e with
  | CancelledError => false
  | _ => true
  end.

(** ** Values read off the wire *)

(** What [json.loads] returns. A JSON object becomes a [dict], kept here as an
    association list with distinct keys. *)
#[local] Unset Elimination Schemes.
Inductive json : Type :=
| JNull
| JBool (b : bool)
| JInt (z : Z)
| JFloat (f : float)
| JStr (s : string)
| JArr (items : list json)
| JObj (members : list (string * json)).
#[local] Set Elimination Schemes.

Fixpoint assoc (k : string) (kvs : list (string * json)) : option json :=
  match kvs with
  | [] => None
  | (k', v) :: rest => if String.eqb k k' then Some v else assoc k rest
  end.

(** ** Library functions the module calls

    NumPy, the JSON reader, the string-to-float parser and [round] are not part
    of the repository; the embedding takes them as an interface. *)
Class Builtins : Type := {
  json_loads : string -> option json;        (* None: JSONDecodeError *)
  float_of_str : string -> option float;     (* None: ValueError *)
  np_mean : list float -> float;
  np_std : list float -> float;              (* population standard deviation *)
  py_round : float -> Z -> float             (* round(x, ndigits) *)
}.

(** ** The anomaly engine *)

Inductive Status : Type :=
| CALIBRATING
| STABLE
| NORMAL
| PUMP_DETECTED
| DUMP_DETECTED.

(** The dict [calculate_anomaly] returns.  The literal [0] of the first two
    branches is the float zero here. *)
Record Stats : Type := {
  status : Status;
  z_score : float;
  mean_price : float
}.

(** [deque(maxlen=100)]: appending to a full deque drops its leftmost item. *)
Definition maxlen : nat := 100.

Definition deque_append (d : list float) (x : float) : list float :=
  if (List.length d <? maxlen)%nat then d ++ [x] else tl d ++ [x].

Section Analytics.
Context `{Builtins}.

(** [calculate_anomaly(current_price)], with the global [price_history] it
    reads made a parameter. *)
Definition calculate_anomaly (price_history : list float) (current_price : float) : Stats :=
  if (List.length price_history <? 20)%nat then
    {| status := CALIBRATING; z_score := 0; mean_price := current_price |}
  else
    let mean := np_mean price_history in
    let std_dev := np_std price_history in
    if (std_dev =? 0)%float then
      {| status := STABLE; z_score := 0; mean_price := mean |}
    else
      let z := ((current_price - mean) / std_dev)%float in
      let st :=
        if (2 <? z)%float then PUMP_DETECTED
        else if (z <? -2)%float then DUMP_DETECTED
        else NORMAL in
      {| status := st; z_score := py_round z 2; mean_price := py_round mean 2 |}.
End Analytics.

(** ** The process state *)

(** The global dict [portfolio], whose two keys never change. *)
Record Portfolio : Type := {
  usd : float;
  btc : float
}.

(** A row of table [trades]. *)
Record TradeRecord : Type := {
  tr_id : Z;
  tr_type : string;
  tr_price : float;
  tr_amount : float;
  tr_timestamp : Z
}.

(** A subscriber's socket object, known by its identity. *)
Definition WebSocket : Type := nat.

(** The dict the listener broadcasts; [timestamp] is the clock reading that
    [datetime.now().isoformat()] prints. *)
Record Payload : Type := {
  price : float;
  stats : Stats;
  volume : float;
  is_whale : bool;
  timestamp : Z
}.

Inductive LogEntry : Type :=
| LogInfo (event : string)
| LogError (event : string) (error : exn)
| LogTrade (ty : string) (at_price new_balance : float).

(** What the upstream connection hands to one [await ws.recv()]: a text frame,
    or the task being cancelled while it waits. Once the frames are used up the
    connection is closed. *)
Inductive Frame : Type :=
| Text (msg : string)
| Cancel.

Record world : Type := World {
  portfolio : Portfolio;
  price_history : list float;
  active_connections : list WebSocket;      (* manager.active_connections *)
  closed : list WebSocket;                  (* subscriber transports that are gone *)
  sent : list (WebSocket * Payload);        (* frames written by send_json, oldest first *)
  log : list LogEntry;
  clock : Z;                                (* seconds *)
  trades : list TradeRecord;
  binance : list Frame;                     (* the open upstream connection *)
  exchange : list (list Frame)              (* what further connects would serve *)
}.

Definition set_portfolio (p : Portfolio) (w : world) : world :=
  World p (price_history w) (active_connections w) (closed w) (sent w) (log w)
        (clock w) (trades w) (binance w) (exchange w).
Definition set_price_history (h : list float) (w : world) : world :=
  World (portfolio w) h (active_connections w) (closed w) (sent w) (log w)
        (clock w) (trades w) (binance w) (exchange w).
Definition set_active_connections (l : list WebSocket) (w : world) : world :=
  World (portfolio w) (price_history w) l (closed w) (sent w) (log w)
        (clock w) (trades w) (binance w) (exchange w).
Definition set_sent (s : list (WebSocket * Payload)) (w : world) : world :=
  World (portfolio w) (price_history w) (active_connections w) (closed w) s (log w)
        (clock w) (trades w) (binance w) (exchange w).
Definition set_log (l : list LogEntry) (w : world) : world :=
  World (portfolio w) (price_history w) (active_connections w) (closed w) (sent w) l
        (clock w) (trades w) (binance w) (exchange w).
Definition set_clock (t : Z) (w : world) : world :=
  World (portfolio w) (price_history w) (active_connections w) (closed w) (sent w) (log w)
        t (trades w) (binance w) (exchange w).
Definition set_trades (t : list TradeRecord) (w : world) : world :=
  World (portfolio w) (price_history w) (active_connections w) (closed w) (sent w) (log w)
        (clock w) t (binance w) (exchange w).
Definition set_binance (b : list Frame) (w : world) : world :=
  World (portfolio w) (price_history w) (active_connections w) (closed w) (sent w) (log w)
        (clock w) (trades w) b (exchange w).
Definition set_exchange (x : list (list Frame)) (w : world) : world :=
  World (portfolio w) (price_history w) (active_connections w) (closed w) (sent w) (log w)
        (clock w) (trades w) (binance w) x.

(** ** State and exceptions *)

(** A computation changes the world and either returns or raises; what it did
    before raising stays done. *)
Definition M (A : Type) : Type := world -> (exn + A) * world.

Definition ret {A} (a : A) : M A := fun w => (inr a, w).
Definition raise {A} (e : exn) : M A := fun w => (inl e, w).
Definition bind {A B} (m : M A) (k : A -> M B) : M B :=
  fun w =>
    match m w with
    | (inr a, w') => k a w'
    | (inl e, w') => (inl e, w')
    end.
Definition gets {A} (f : world -> A) : M A := fun w => (inr (f w), w).
Definition modify (f : world -> world) : M unit := fun w => (inr tt, f w).

(** [try: m  except Exception as e: h e] *)
Definition try_except {A} (m : M A) (h : exn -> M A) : M A :=
  fun w =>
    match m w with
    | (inl e, w') => if is_Exception e then h e w' else (inl e, w')
    | r => r
    end.

Declare Scope py_scope.
Delimit Scope py_scope with py.
Notation "x <- m ;; k" := (bind m (fun x => k))
  (at level 100, m at next level, right associativity) : py_scope.
Notation "m ;; k" := (bind m (fun _ => k))
  (at level 100, right associativity) : py_scope.
Local Open Scope py_scope.

(** [for x in l: body x] *)
Fixpoint for_each {A} (l : list A) (body : A -> M unit) : M unit :=
  match l with
  | [] => ret tt
  | x :: rest => body x ;; for_each rest body
  end.

Definition logger (e : LogEntry) : M unit := modify (fun w => set_log (log w ++ [e]) w).

(** [await asyncio.sleep(seconds)] *)
Definition sleep (seconds : Z) : M unit := modify (fun w => set_clock (clock w + seconds)%Z w).

(** ** Python's operators on decoded values *)

Definition lift {A} (r : exn + A) : M A := fun w => (r, w).

(** [key in data]: keys of a dict, items of a list, substrings of a str; the
    other JSON values are not containers. *)
Definition py_contains (key : string) (data : json) : exn + bool :=
  match data with
  | JObj members => inr (match assoc key members with Some _ => true | None => false end)
  | JArr items =>
      inr (existsb (fun v => match v with JStr s => String.eqb s key | _ => false end) items)
  | JStr s => inr (match String.index 0 key s with Some _ => true | None => false end)
  | _ => inl TypeError
  end.

(** [data[key]] with a str key: only a dict can answer. *)
Definition py_getitem (data : json) (key : string) : exn + json :=
  match data with
  | JObj members =>
      match assoc key members with
      | Some v => inr v
      | None => inl (KeyError key)
      end
  | _ => inl TypeError
  end.

(** The binary64 nearest to an integer (infinite when out of range). *)
Definition float_of_Z (z : Z) : float :=
  SF2Prim (binary_normalize prec emax z 0 false).

(** [float(n)] on an int: the nearest binary64, or OverflowError. *)
Definition float_of_int (z : Z) : exn + float :=
  let f := float_of_Z z in
  if is_infinity f then inl OverflowError else inr f.

Section Conversions.
Context `{Builtins}.

(** [float(v)] *)
Definition py_float (v : json) : exn + float :=
  match v with
  | JStr s =>
      match float_of_str s with
      | Some f => inr f
      | None => inl ValueError
      end
  | JInt z => float_of_int z
  | JFloat f => inr f
  | JBool b => inr (if b then 1 else 0)%float
  | _ => inl TypeError
  end.

(** [json.loads(msg)] *)
Definition loads (msg : string) : M json :=
  match json_loads msg with
  | Some data => ret data
  | None => raise JSONDecodeError
  end.
End Conversions.

(** ** The websocket manager *)

(** [await connection.send_json(message)]: a transport that is gone raises. *)
Definition send_json (connection : WebSocket) (message : Payload) : M unit :=
  fun w =>
    if existsb (Nat.eqb connection) (closed w)
    then (inl (SendError connection), w)
    else (inr tt, set_sent (sent w ++ [(connection, message)]) w).

(** [list.remove(x)]: drops the first occurrence, ValueError when there is none. *)
Fixpoint list_remove (x : WebSocket) (l : list WebSocket) : option (list WebSocket) :=
  match l with
  | [] => None
  | y :: rest =>
      if Nat.eqb x y then Some rest
      else match list_remove x rest with
           | Some rest' => Some (y :: rest')
           | None => None
           end
  end.

Module ConnectionManager.

(** [await websocket.accept()] is taken to succeed. *)
Definition connect (websocket : WebSocket) : M unit :=
  modify (fun w => set_active_connections (active_connections w ++ [websocket]) w).

Definition disconnect (websocket : WebSocket) : M unit :=
  fun w =>
    match list_remove websocket (active_connections w) with
    | Some l => (inr tt, set_active_connections l w)
    | None => (inl ValueError, w)
    end.

Definition broadcast (message : Payload) : M unit :=
  conns <- gets active_connections ;;
  for_each conns (fun connection => send_json connection message).

End ConnectionManager.

(** ** The market listener *)

(** [await ws.recv()] *)
Definition recv : M string :=
  fun w =>
    match binance w with
    | [] => (inl ConnectionClosed, w)
    | Text msg :: rest => (inr msg, set_binance rest w)
    | Cancel :: rest => (inl CancelledError, set_binance rest w)
    end.

(** [while True: body], run for at most [fuel] rounds; it stops earlier only
    when the body raises. *)
Fixpoint while_true (fuel : nat) (body : M unit) : M unit :=
  match fuel with
  | O => ret tt
  | S n => body ;; while_true n body
  end.

(** [async with websockets.connect(url) as ws: body]: one connect, and the
    connection is closed when an exception leaves the block. *)
Definition with_connection (body : M unit) : M unit :=
  fun w =>
    match exchange w with
    | [] => (inl OSError, w)
    | frames :: later =>
        match body (set_exchange later (set_binance frames w)) with
        | (inl e, w') => (inl e, set_binance [] w')
        | r => r
        end
    end.

Section Listener.
Context `{Builtins}.

(** The body of the [try] block. *)
Definition handle_frame : M unit :=
  msg <- recv ;;
  data <- loads msg ;;
  has_p <- lift (py_contains "p" data) ;;
  if (has_p : bool) then
    vp <- lift (py_getitem data "p") ;;
    price <- lift (py_float vp) ;;
    vq <- lift (py_getitem data "q") ;;
    qty <- lift (py_float vq) ;;
    let volume := (price * qty)%float in
    modify (fun w => set_price_history (deque_append (price_history w) price) w) ;;
    stats <- gets (fun w => calculate_anomaly (price_history w) price) ;;
    let is_whale := (50000 <? volume)%float in
    now <- gets clock ;;
    ConnectionManager.broadcast
      {| price := price; stats := stats; volume := volume;
         is_whale := is_whale; timestamp := now |}
  else ret tt.

(** One round of the [while True] loop. *)
Definition loop_body : M unit :=
  try_except handle_frame
    (fun e => logger (LogError "feed_error" e) ;; sleep 5).

Definition listen_to_crypto_market (fuel : nat) : M unit :=
  with_connection
    (logger (LogInfo "connected_to_binance") ;;
     while_true fuel loop_body).
End Listener.

(** ** The trade endpoint *)

Record Response : Type := {
  resp_status : string;
  trade_id : Z;
  resp_portfolio : Portfolio
}.

(** [db.add(new_trade); await db.commit(); await db.refresh(new_trade)]: the
    table issues the next id. *)
Definition persist (type : string) (price amount : float) : M Z :=
  fun w =>
    let id := (1 + Z.of_nat (List.length (trades w)))%Z in
    let row := {| tr_id := id; tr_type := type; tr_price := price;
                  tr_amount := amount; tr_timestamp := clock w |} in
    (inr id, set_trades (trades w ++ [row]) w).

(** [amount = 0.1], the trade size: the binary64 nearest to one tenth. *)
Definition amount : float := 0x1.999999999999ap-4%float.

Definition execute_trade (type : string) (price : float) : M Response :=
  (if String.eqb type "BUY" then
     let cost := (price * amount)%float in
     p <- gets portfolio ;;
     if (usd p <? cost)%float then raise (HTTPException 400 "Insufficient Funds")
     else
       modify (fun w => set_portfolio {| usd := (usd (portfolio w) - cost)%float;
                                         btc := btc (portfolio w) |} w) ;;
       modify (fun w => set_portfolio {| usd := usd (portfolio w);
                                         btc := (btc (portfolio w) + amount)%float |} w)
   else if String.eqb type "SELL" then
     p <- gets portfolio ;;
     if (btc p <? amount)%float then raise (HTTPException 400 "Insufficient BTC")
     else
       let revenue := (price * amount)%float in
       modify (fun w => set_portfolio {| usd := usd (portfolio w);
                                         btc := (btc (portfolio w) - amount)%float |} w) ;;
       modify (fun w => set_portfolio {| usd := (usd (portfolio w) + revenue)%float;
                                         btc := btc (portfolio w) |} w)
   else ret tt) ;;
  new_trade_id <- persist type price amount ;;
  p <- gets portfolio ;;
  logger (LogTrade type price (usd p)) ;;
  ret {| resp_status := "executed"; trade_id := new_trade_id; resp_portfolio := p |}.

(** ** The trade endpoint against a database that can fail *)

(** How the database answers the insert of a trade: it goes through;
    [await db.commit()] raises [e], and nothing is written; or the commit goes
    through and [await db.refresh(new_trade)] raises [e]. *)
Inductive Database : Type :=
| DbOk
| CommitFails (e : exn)
| RefreshFails (e : exn).

Definition persist_on (db : Database) (type : string) (price amount : float) : M Z :=
  match db with
  | DbOk => persist type price amount
  | CommitFails e => raise e
  | RefreshFails e => persist type price amount ;; raise e
  end.

(** [execute_trade], with the answer of the database made explicit. *)
Definition execute_trade_on (db : Database) (type : string) (price : float) : M Response :=
  (if String.eqb type "BUY" then
     let cost := (price * amount)%float in
     p <- gets portfolio ;;
     if (usd p <? cost)%float then raise (HTTPException 400 "Insufficient Funds")
     else
       modify (fun w => set_portfolio {| usd := (usd (portfolio w) - cost)%float;
                                         btc := btc (portfolio w) |} w) ;;
       modify (fun w => set_portfolio {| usd := usd (portfolio w);
                                         btc := (btc (portfolio w) + amount)%float |} w)
   else if String.eqb type "SELL" then
     p <- gets portfolio ;;
     if (btc p <? amount)%float then raise (HTTPException 400 "Insufficient BTC")
     else
       let revenue := (price * amount)%float in
       modify (fun w => set_portfolio {| usd := usd (portfolio w);
                                         btc := (btc (portfolio w) - amount)%float |} w) ;;
       modify (fun w => set_portfolio {| usd := (usd (portfolio w) + revenue)%float;
                                         btc := btc (portfolio w) |} w)
   else ret tt) ;;
  new_trade_id <- persist_on db type price amount ;;
  p <- gets portfolio ;;
  logger (LogTrade type price (usd p)) ;;
  ret {| resp_status := "executed"; trade_id := new_trade_id; resp_portfolio := p |}.

(** The portfolio a trade leaves behind, or [None] when the funds check
    refuses it. *)
Definition settle (type : string) (price : float) (p : Portfolio) : option Portfolio :=
  if String.eqb type "BUY" then
    if (usd p <? price * amount)%float then None
    else Some {| usd := (usd p - price * amount)%float; btc := (btc p + amount)%float |}
  else if String.eqb type "SELL" then
    if (btc p <? amount)%float then None
    else Some {| usd := (usd p + price * amount)%float; btc := (btc p - amount)%float |}
  else Some p.

(** ** The subscriber endpoint *)

(** What one [await websocket.receive_text()] finds on a subscriber's socket:
    a text, the client's disconnect (WebSocketDisconnect), or another
    exception. *)
Inductive Incoming : Type :=
| IncomingText (data : string)
| IncomingDisconnect
| IncomingFailure (e : exn).

(** How far a session has got: its handler has returned, or it is waiting in
    [receive_text]. *)
Inductive Session : Type :=
| Ended
| Waiting.

(** The [try: while True: await websocket.receive_text()] of the endpoint with
    its [except WebSocketDisconnect] branch, run over what the socket will
    receive; when that runs out the handler is left waiting. *)
Fixpoint receive_loop (websocket : WebSocket) (incoming : list Incoming) : M Session :=
  match incoming with
  | [] => ret Waiting
  | IncomingText _ :: rest => receive_loop websocket rest
  | IncomingDisconnect :: _ => ConnectionManager.disconnect websocket ;; ret Ended
  | IncomingFailure e :: _ => raise e
  end.

Definition websocket_endpoint (websocket : WebSocket) (incoming : list Incoming) : M Session :=
  ConnectionManager.connect websocket ;;
  receive_loop websocket incoming.

(** ** The rate limiter ([rate_limiter.py]) *)

(** [x < n] for a float [x] and an int [n]: Python compares the two exactly. *)
Definition float_lt_int (x : float) (n : Z) : bool :=
  match Prim2SF x with
  | S754_zero _ => (0 <? n)%Z
  | S754_infinity negative => negative
  | S754_nan => false
  | S754_finite negative m e =>
      let v := if negative then Z.neg m else Z.pos m in
      if (0 <=? e)%Z then (v * 2 ^ e <? n)%Z
      else (v <? n * 2 ^ (- e))%Z
  end.

(** [str(n)] on an int. *)
Definition str_of_int (n : Z) : string := NilZero.string_of_int (Z.to_int n).

(** A dict with str keys, in insertion order. *)
Fixpoint dict_get {A} (k : string) (d : list (string * A)) : option A :=
  match d with
  | [] => None
  | (k', v) :: rest => if String.eqb k k' then Some v else dict_get k rest
  end.

Fixpoint dict_set {A} (k : string) (v : A) (d : list (string * A)) : list (string * A) :=
  match d with
  | [] => [(k, v)]
  | (k', v') :: rest =>
      if String.eqb k k' then (k, v) :: rest else (k', v') :: dict_set k v rest
  end.

Module SimpleRateLimiter.

Record t : Type := {
  max_calls : Z;
  time_window : Z;
  client_history : list (string * list float)
}.

(** [SimpleRateLimiter(max_calls, time_window)] *)
Definition __init__ (max_calls time_window : Z) : t :=
  {| max_calls := max_calls; time_window := time_window; client_history := [] |}.

Definition set_client_history (h : list (string * list float)) (self : t) : t :=
  {| max_calls := max_calls self; time_window := time_window self; client_history := h |}.

(** The timestamps of [history] that [current_time] still has inside the window. *)
Definition valid (self : t) (current_time : float) (history : list float) : list float :=
  filter (fun t => float_lt_int (current_time - t)%float (time_window self)) history.

(** [limiter(request)], for a request from [client_ip] (its
    [request.client.host]) at the moment [time.time()] reads [current_time]. *)
Definition __call__ (self : t) (client_ip : string) (current_time : float)
  : (exn + bool) * t :=
  let self :=
    match dict_get client_ip (client_history self) with
    | None => set_client_history (dict_set client_ip [] (client_history self)) self
    | Some _ => self
    end in
  let history :=
    match dict_get client_ip (client_history self) with
    | Some h => h
    | None => []
    end in
  let valid_history := valid self current_time history in
  if (max_calls self <=? Z.of_nat (List.length valid_history))%Z then
    (inl (HTTPException 429
            ("Rate limit exceeded. Max " ++ str_of_int (max_calls self)
             ++ " requests per " ++ str_of_int (time_window self) ++ " seconds.")%string),
     self)
  else
    (inr true,
     set_client_history
       (dict_set client_ip (valid_history ++ [current_time]) (client_history self)) self).

(** The requests of one client at the moments [times], in turn: what each was
    answered, and the limiter at the end. *)
Fixpoint serve (self : t) (client_ip : string) (times : list float)
  : list (exn + bool) * t :=
  match times with
  | [] => ([], self)
  | current_time :: later =>
      let (answer, self') := __call__ self client_ip current_time in
      let (answers, self'') := serve self' client_ip later in
      (answer :: answers, self'')
  end.

End SimpleRateLimiter.

(** ** The event service ([services.py]) *)

Module EventService.
Section WithEvent.
Variable Event : Type.

(** [self.db], and the seconds spent in [asyncio.sleep]. *)
Record t : Type := {
  db : list Event;
  slept : float
}.

Definition __init__ : t := {| db := []; slept := 0 |}.

Definition add_event (self : t) (event : Event) : Event * t :=
  (event, {| db := db self ++ [event]; slept := (slept self + 0.5)%float |}).

Definition get_events (self : t) : list Event * t :=
  (db self, {| db := db self; slept := (slept self + 0x1.999999999999ap-3)%float |}).

End WithEvent.
End EventService.

(** ** Vocabulary of the statements *)

Definition alive (w : world) (c : WebSocket) : bool :=
  negb (existsb (Nat.eqb c) (closed w)).

(** The window after pushing [prices], oldest first, into an empty deque. *)
Definition pushes (prices : list float) : list float :=
  fold_left deque_append prices [].

Section Vocabulary.
Context `{Builtins}.

(** The world once the listener has taken a frame and pushed [price]. *)
Definition after_push (w : world) (rest : list Frame) (price : float) : world :=
  set_price_history (deque_append (price_history w) price) (set_binance rest w).

(** The event built for a tick [price], [qty] taken in world [w]. *)
Definition enriched_event (w : world) (price qty : float) : Payload :=
  {| price := price;
     stats := calculate_anomaly (deque_append (price_history w) price) price;
     volume := (price * qty)%float;
     is_whale := (50000 <? price * qty)%float;
     timestamp := clock w |}.

(** The world after the [except] branch has handled [e]. *)
Definition after_feed_error (e : exn) (w : world) : world :=
  set_clock (clock w + 5)%Z (set_log (log w ++ [LogError "feed_error" e]) w).
End Vocabulary.

(** ** Library functions to run the model with

    NumPy's mean and population standard deviation of a float64 array, summed
    the way NumPy sums it, rounding to [ndigits] decimals by scaling, and the
    values of [json.loads] and [float] on the handful of frames used in the
    examples. *)

Definition rint (x : float) : float :=
  if (abs x <? 0x1p52)%float then
    if (x <? 0)%float then ((x - 0x1p52) + 0x1p52)%float
    else ((x + 0x1p52) - 0x1p52)%float
  else x.

(** The items of [l] that sit at the positions [i], [i + 1], ... congruent to
    [j] modulo 8. *)
Fixpoint lane (j i : nat) (l : list float) : list float :=
  match l with
  | [] => []
  | x :: rest =>
      if (i mod 8 =? j)%nat then x :: lane j (S i) rest else lane j (S i) rest
  end.

(** NumPy's sum of a block of 8 to 128 floats: eight running sums over the
    positions 0, 8, 16, ... to 7, 15, 23, ..., added up as a tree, and the
    items left over past the last multiple of 8 added one by one. *)
Definition block_sum (a : list float) : float :=
  let n := List.length a in
  let full := (n - n mod 8)%nat in
  let body := firstn (full - 8) (skipn 8 a) in
  let r := fun j => fold_left PrimFloat.add (lane j 0 body) (nth j a 0%float) in
  let res := (((r 0%nat + r 1%nat) + (r 2%nat + r 3%nat))
              + ((r 4%nat + r 5%nat) + (r 6%nat + r 7%nat)))%float in
  fold_left PrimFloat.add (skipn full a) res.

(** NumPy's pairwise summation ([add.reduce] on a contiguous float64 array):
    fewer than 8 items are added left to right, up to 128 as a block, and more
    are split in two halves summed apart. [fuel] bounds the splitting; the
    length is enough. The reduction's initial zero is left out: it can only
    change the sign of a zero sum. *)
Fixpoint pairwise_sum (fuel : nat) (a : list float) : float :=
  let n := List.length a in
  if (n <? 8)%nat then fold_left PrimFloat.add a (-0)%float
  else if (n <=? 128)%nat then block_sum a
  else
    match fuel with
    | O => block_sum a
    | S fuel' =>
        let n2 := (n / 2 - (n / 2) mod 8)%nat in
        (pairwise_sum fuel' (firstn n2 a) + pairwise_sum fuel' (skipn n2 a))%float
    end.

(** [np.mean(data)]: the sum over the count. *)
Definition mean_of (l : list float) : float :=
  (pairwise_sum (List.length l) l / float_of_Z (Z.of_nat (List.length l)))%float.

(** [np.std(data)]: the root of the mean of the squared distances to the mean. *)
Definition std_of (l : list float) : float :=
  let m := mean_of l in
  PrimFloat.sqrt (mean_of (map (fun x => ((x - m) * (x - m))%float) l)).

Definition round_to (x : float) (ndigits : Z) : float :=
  let scale := float_of_Z (10 ^ ndigits) in
  (rint (x * scale) / scale)%float.

Definition dq : string := String (ascii_of_nat 34) EmptyString.

(** The text [{"k": "v"}] and [{"k1": "v1", "k2": "v2"}]. *)
Definition member (k v : string) : string :=
  (dq ++ k ++ dq ++ ":" ++ dq ++ v ++ dq)%string.
Definition object1 (k v : string) : string :=
  ("{" ++ member k v ++ "}")%string.
Definition object2 (k1 v1 k2 v2 : string) : string :=
  ("{" ++ member k1 v1 ++ "," ++ member k2 v2 ++ "}")%string.

Definition trade_frame (p q : string) : string := object2 "p" p "q" q.
Definition price_only_frame (p : string) : string := object1 "p" p.
Definition heartbeat_frame : string := object1 "e" "ping".

Definition known_floats : list (string * float) :=
  [ ("60000.00", 60000%float); ("50000.00", 50000%float); ("49999.00", 49999%float);
    ("120.04", 0x1.e028f5c28f5c3p+6%float); ("1.0", 1%float) ].

Fixpoint lookup {A} (k : string) (table : list (string * A)) : option A :=
  match table with
  | [] => None
  | (k', v) :: rest => if String.eqb k k' then Some v else lookup k rest
  end.

Definition known_frames : list (string * json) :=
  [ (trade_frame "60000.00" "1.0", JObj [("p", JStr "60000.00"); ("q", JStr "1.0")]);
    (trade_frame "50000.00" "1.0", JObj [("p", JStr "50000.00"); ("q", JStr "1.0")]);
    (trade_frame "49999.00" "1.0", JObj [("p", JStr "49999.00"); ("q", JStr "1.0")]);
    (price_only_frame "60000.00", JObj [("p", JStr "60000.00")]);
    (heartbeat_frame, JObj [("e", JStr "ping")]) ].

Definition demo : Builtins :=
  {| json_loads := fun s => lookup s known_frames;
     float_of_str := fun s => lookup s known_floats;
     np_mean := mean_of;
     np_std := std_of;
     py_round := round_to |}.

(** The process at start-up, before any subscriber or frame. *)
Definition idle : world :=
  {| portfolio := {| usd := 100000; btc := 0 |};
     price_history := [];
     active_connections := [];
     closed := [];
     sent := [];
     log := [];
     clock := 0;
     trades := [];
     binance := [];
     exchange := [] |}.

(** ** Worlds and windows to run the model on *)

(** Ten prices of 90 and ten of 110: mean 100, standard deviation 10. *)
Definition spread_window : list float := repeat 90%float 10 ++ repeat 110%float 10.


(** Twenty prices of 1.1 (the binary64 nearest to it). *)
Definition identical_prices : list float := repeat 0x1.199999999999ap+0%float 20.

(** Three subscribers, the second one gone. *)
Definition three_subscribers : world :=
  {| portfolio := {| usd := 100000; btc := 0 |};
     price_history := [];
     active_connections := [1; 2; 3]%nat;
     closed := [2]%nat;
     sent := [];
     log := [];
     clock := 0;
     trades := [];
     binance := [];
     exchange := [] |}.

Definition all_up : world := set_active_connections [1; 2; 3]%nat idle.

Definition some_event : Payload := @enriched_event demo idle 60000 1.

(** One subscriber up behind one that is gone, and a trade on the wire. *)
Definition stalled : world :=
  {| portfolio := {| usd := 100000; btc := 0 |};
     price_history := [];
     active_connections := [1; 2]%nat;
     closed := [1]%nat;
     sent := [];
     log := [];
     clock := 0;
     trades := [];
     binance := [Text (trade_frame "60000.00" "1.0")];
     exchange := [] |}.

(** All subscribers up and a frame on the wire. *)
Definition receiving (frame : string) : world :=
  set_binance [Text frame] all_up.

(** The exchange serves one trade and drops the connection; a second
    connection would serve another trade. *)
Definition flaky_exchange : world :=
  set_exchange [[Text (trade_frame "60000.00" "1.0")];
                [Text (trade_frame "49999.00" "1.0")]] all_up.

(** The listener after its connection has dropped. *)
Definition dropped : world :=
  set_exchange [[Text (trade_frame "49999.00" "1.0")]] all_up.

Definition trade_60000 : list (string * json) :=
  [("p", JStr "60000.00"); ("q", JStr "1.0")].

(** Just connected to the exchange of [flaky_exchange]. *)
Definition connected : world :=
  set_log [LogInfo "connected_to_binance"]
    (set_exchange [[Text (trade_frame "49999.00" "1.0")]]
       (set_binance [Text (trade_frame "60000.00" "1.0")] all_up)).

(** A frame that is not JSON, then a trade. *)
Definition garbled_then_trade : world :=
  set_binance [Text "ping"; Text (trade_frame "60000.00" "1.0")] all_up.

Section MoreVocabulary.
Context `{Builtins}.

(** The text [msg] is a JSON object whose ["p"] and ["q"] convert to [price]
    and [qty]. *)
Definition decodes_to (msg : string) (price qty : float) : Prop :=
  exists members vp vq,
    json_loads msg = Some (JObj members)
    /\ assoc "p" members = Some vp /\ py_float vp = inr price
    /\ assoc "q" members = Some vq /\ py_float vq = inr qty.
End MoreVocabulary.

(** Who was sent which price: the frames sent, reduced to subscriber and price. *)
Definition deliveries (frames : list (WebSocket * Payload)) : list (WebSocket * float) :=
  map (fun f => (fst f, price (snd f))) frames.

(** The timestamps the limiter holds for a client (none for an unknown one). *)
Definition stored (self : SimpleRateLimiter.t) (client_ip : string) : list float :=
  match dict_get client_ip (SimpleRateLimiter.client_history self) with
  | Some h => h
  | None => []
  end.

(** The request was let through. *)
Definition admitted (answer : exn + bool) : bool :=
  match answer with
  | inr _ => true
  | inl _ => false
  end.

(** [t] is still inside a window of [window] seconds at the moment [now]. *)
Definition fresh (window : Z) (now t : float) : bool :=
  float_lt_int (now - t)%float window.

(** Moments that all fall in one window: each is still fresh at every later one. *)
Fixpoint within_window (window : Z) (times : list float) : Prop :=
  match times with
  | [] => True
  | t :: later => Forall (fun now => fresh window now t = true) later
                  /\ within_window window later
  end.

(** ** More to run the model on *)

(** Frames that are JSON but no object: the string ["pong"], the string
    ["ok"] and the number 42. *)
Definition pong_frame : string := (dq ++ "pong" ++ dq)%string.
Definition ok_frame : string := (dq ++ "ok" ++ dq)%string.

Definition more_frames : list (string * json) :=
  [ (pong_frame, JStr "pong"); (ok_frame, JStr "ok"); ("42", JInt 42) ].

Definition demo_more : Builtins :=
  {| json_loads := fun s => lookup s (more_frames ++ known_frames);
     float_of_str := fun s => lookup s known_floats;
     np_mean := mean_of;
     np_std := std_of;
     py_round := round_to |}.

(** Two trades, with the price and quantity they decode to. *)
Definition two_trades : list (string * (float * float)) :=
  [ (trade_frame "60000.00" "1.0", (60000%float, 1%float));
    (trade_frame "49999.00" "1.0", (49999%float, 1%float)) ].

(** All subscribers up and the two trades on the wire. *)
Definition receiving_two : world :=
  set_binance (map (fun t => Text (fst t)) two_trades) all_up.

(** The second of three subscribers gone and the two trades on the wire. *)
Definition blocked_two : world :=
  set_binance (map (fun t => Text (fst t)) two_trades) three_subscribers.

(** An exchange whose connection serves a frame that is not JSON, then sees
    the task cancelled. *)
Definition cancelled_exchange : world :=
  set_exchange [[Text "ping"; Cancel; Text (trade_frame "60000.00" "1.0")]] all_up.

(** A portfolio whose dollar balance is NaN. *)
Definition poisoned : world :=
  set_portfolio {| usd := nan; btc := 0 |} idle.

(** Two calls per ten seconds; one client seen at 1000 and 1001. *)
Definition two_per_ten : SimpleRateLimiter.t := SimpleRateLimiter.__init__ 2 10.

Definition seen_twice : SimpleRateLimiter.t :=
  SimpleRateLimiter.set_client_history [("10.0.0.1", [1000%float; 1001%float])] two_per_ten.

(** * Properties *)

(** ** Binary64 comparisons *)

(** A float above [2] is not below [-2], whatever it is (NaN included). *)
Lemma above_two_not_below_minus_two (z : float) :
  (2 <? z)%float = true -> (z <? -2)%float = false.
Proof.
  rewrite !ltb_spec.
  replace (Prim2SF 2) with (S754_finite false 4503599627370496 (-51))
    by (vm_compute; reflexivity).
  replace (Prim2SF (-2)) with (S754_finite true 4503599627370496 (-51))
    by (vm_compute; reflexivity).
  destruct (Prim2SF z) as [s | s | | s m e]; try destruct s;
    unfold SFltb; cbn [SFcompare]; congruence.
Qed.

(** ** The rolling window *)

Lemma tl_skipn {A} (k : nat) (l : list A) : tl (skipn k l) = skipn (S k) l.
Proof.
  revert l; induction k as [|k IH]; intros [|a l]; simpl; auto.
Qed.

Lemma pushes_snoc (prices : list float) (x : float) :
  pushes (prices ++ [x]) = deque_append (pushes prices) x.
Proof. unfold pushes. rewrite fold_left_app. reflexivity. Qed.

Lemma deque_append_last (l : list float) (x : float) :
  deque_append (skipn (List.length l - maxlen) l) x
  = skipn (List.length (l ++ [x]) - maxlen) (l ++ [x]).
Proof.
  unfold deque_append.
  rewrite length_skipn, length_app. simpl List.length.
  destruct (Nat.ltb_spec (List.length l - (List.length l - maxlen)) maxlen) as [Hlt | Hge].
  - assert (Hshort : (List.length l < maxlen)%nat) by lia.
    replace (List.length l - maxlen)%nat with 0%nat by lia.
    replace (List.length l + 1 - maxlen)%nat with 0%nat by lia.
    reflexivity.
  - rewrite tl_skipn.
    replace (List.length l + 1 - maxlen)%nat with (S (List.length l - maxlen))
      by (unfold maxlen in *; lia).
    rewrite skipn_app.
    replace (S (List.length l - maxlen) - List.length l)%nat with 0%nat
      by (unfold maxlen in *; lia).
    reflexivity.
Qed.

Lemma pushes_last (prices : list float) :
  pushes prices = skipn (List.length prices - maxlen) prices.
Proof.
  induction prices as [|x prices IH] using rev_ind.
  - reflexivity.
  - rewrite pushes_snoc, IH. apply deque_append_last.
Qed.

(** C7: after any sequence of pushes the window holds at most [maxlen] = 100
    prices, and they are exactly the last 100 pushed (all of them when fewer
    were pushed), in arrival order; a push onto a full window drops only its
    oldest price. *)
Theorem C7_window_holds_last_100 (prices : list float) :
  (List.length (pushes prices) <= 100)%nat
  /\ pushes prices = skipn (List.length prices - 100) prices
  /\ forall x,
       pushes (prices ++ [x])
       = if (List.length (pushes prices) <? 100)%nat
         then pushes prices ++ [x]
         else tl (pushes prices) ++ [x].
Proof.
  split; [| split].
  - rewrite pushes_last, length_skipn. unfold maxlen. lia.
  - apply pushes_last.
  - intro x. apply pushes_snoc.
Qed.

(** ** The anomaly engine *)

Section AnalyticsFacts.
Context `{Builtins}.

Lemma calculate_anomaly_scored (price_history : list float) (current_price : float) :
  (20 <= List.length price_history)%nat ->
  (np_std price_history =? 0)%float = false ->
  calculate_anomaly price_history current_price
  = let z := ((current_price - np_mean price_history) / np_std price_history)%float in
    {| status := if (2 <? z)%float then PUMP_DETECTED
                 else if (z <? -2)%float then DUMP_DETECTED
                 else NORMAL;
       z_score := py_round z 2;
       mean_price := py_round (np_mean price_history) 2 |}.
Proof.
  intros Hlen Hstd. unfold calculate_anomaly.
  destruct (Nat.ltb_spec (List.length price_history) 20) as [Hlt | _]; [lia |].
  rewrite Hstd. reflexivity.
Qed.

(** C5: on a window of at least 20 prices whose standard deviation is not
    zero, the status is decided by the unrounded quotient
    [(current_price - mean) / std_dev] (pump iff above 2, dump iff below -2,
    normal otherwise), and rounding to two decimals touches only the
    reported [z_score] and [mean_price]. *)
Theorem C5_status_from_unrounded_z_score
    (price_history : list float) (current_price : float) :
  (20 <= List.length price_history)%nat ->
  (np_std price_history =? 0)%float = false ->
  let mean := np_mean price_history in
  let z := ((current_price - mean) / np_std price_history)%float in
  let r := calculate_anomaly price_history current_price in
  z_score r = py_round z 2
  /\ mean_price r = py_round mean 2
  /\ (status r = PUMP_DETECTED <-> (2 <? z)%float = true)
  /\ (status r = DUMP_DETECTED <-> (z <? -2)%float = true)
  /\ (status r = NORMAL <-> (2 <? z)%float = false /\ (z <? -2)%float = false).
Proof.
  intros Hlen Hstd mean z r.
  subst r. rewrite (calculate_anomaly_scored _ current_price Hlen Hstd).
  fold mean. cbv zeta. fold z. cbn [status z_score mean_price].
  pose proof (above_two_not_below_minus_two z) as Hexcl.
  destruct (2 <? z)%float eqn:Hup; destruct (z <? -2)%float eqn:Hdown;
    repeat split; intros; try congruence; try tauto;
    try (specialize (Hexcl eq_refl); congruence).
  all: match goal with
       | Hc : _ /\ _ |- _ => destruct Hc; congruence
       end.
Qed.


(** Below 20 prices the engine is still calibrating. *)
Lemma calculate_anomaly_calibrating (price_history : list float) (current_price : float) :
  (List.length price_history < 20)%nat ->
  calculate_anomaly price_history current_price
  = {| status := CALIBRATING; z_score := 0; mean_price := current_price |}.
Proof.
  intros Hlen. unfold calculate_anomaly.
  destruct (Nat.ltb_spec (List.length price_history) 20) as [_ | Hge]; [reflexivity | lia].
Qed.
End AnalyticsFacts.

(** ** The websocket manager *)

Lemma set_sent_sent (w : world) : set_sent (sent w ++ []) w = w.
Proof. destruct w; unfold set_sent; simpl. rewrite app_nil_r. reflexivity. Qed.

Lemma send_json_alive (c : WebSocket) (m : Payload) (w : world) :
  alive w c = true ->
  send_json c m w = (inr tt, set_sent (sent w ++ [(c, m)]) w).
Proof.
  unfold alive, send_json. intros Hc.
  destruct (existsb (Nat.eqb c) (closed w)); [discriminate | reflexivity].
Qed.

Lemma send_json_dead (c : WebSocket) (m : Payload) (w : world) :
  alive w c = false ->
  send_json c m w = (inl (SendError c), w).
Proof.
  unfold alive, send_json. intros Hc.
  destruct (existsb (Nat.eqb c) (closed w)); [reflexivity | discriminate].
Qed.

(** The loop of [broadcast] stops at the first subscriber whose transport is
    gone; those registered before it have been served. *)
Lemma for_each_send (m : Payload) (before : list WebSocket) :
  forall (w : world) (rest : list WebSocket),
    forallb (alive w) before = true ->
    for_each (before ++ rest) (fun c => send_json c m) w
    = for_each rest (fun c => send_json c m)
        (set_sent (sent w ++ map (fun c => (c, m)) before) w).
Proof.
  induction before as [|c before IH]; intros w rest Halive.
  - simpl. rewrite set_sent_sent. reflexivity.
  - simpl in Halive. apply andb_true_iff in Halive as [Hc Hbefore].
    simpl. unfold bind at 1. rewrite (send_json_alive c m w Hc).
    rewrite IH by exact Hbefore.
    f_equal. destruct w; unfold set_sent; simpl.
    rewrite <- app_assoc. reflexivity.
Qed.

Lemma broadcast_all_alive (m : Payload) (w : world) :
  forallb (alive w) (active_connections w) = true ->
  ConnectionManager.broadcast m w
  = (inr tt, set_sent (sent w ++ map (fun c => (c, m)) (active_connections w)) w).
Proof.
  intros Halive. unfold ConnectionManager.broadcast, bind, gets.
  rewrite <- (app_nil_r (active_connections w)) at 1.
  rewrite for_each_send by exact Halive. reflexivity.
Qed.

Lemma broadcast_first_dead (m : Payload) (w : world)
    (before : list WebSocket) (c : WebSocket) (after : list WebSocket) :
  active_connections w = before ++ c :: after ->
  forallb (alive w) before = true ->
  alive w c = false ->
  ConnectionManager.broadcast m w
  = (inl (SendError c), set_sent (sent w ++ map (fun x => (x, m)) before) w).
Proof.
  intros Hconns Halive Hdead. unfold ConnectionManager.broadcast, bind, gets.
  rewrite Hconns, for_each_send by exact Halive.
  simpl. unfold bind. rewrite send_json_dead; [reflexivity | exact Hdead].
Qed.

(** Whatever happens, [broadcast] changes nothing but the frames sent, and
    every frame it sends carries the message. *)
Lemma broadcast_only_sends (m : Payload) (w : world) :
  exists receivers,
    snd (ConnectionManager.broadcast m w)
    = set_sent (sent w ++ map (fun c => (c, m)) receivers) w.
Proof.
  unfold ConnectionManager.broadcast, bind, gets.
  generalize (active_connections w) as conns.
  intros conns; revert w.
  induction conns as [|c conns IH]; intros w.
  - exists []. simpl. rewrite set_sent_sent. reflexivity.
  - simpl. unfold bind at 1.
    destruct (existsb (Nat.eqb c) (closed w)) eqn:Hc.
    + rewrite send_json_dead by (unfold alive; rewrite Hc; reflexivity).
      exists []. simpl. rewrite set_sent_sent. reflexivity.
    + rewrite send_json_alive by (unfold alive; rewrite Hc; reflexivity).
      destruct (IH (set_sent (sent w ++ [(c, m)]) w)) as [receivers Hrecv].
      exists (c :: receivers). rewrite Hrecv.
      destruct w; unfold set_sent; simpl. rewrite <- app_assoc. reflexivity.
Qed.

(** The only exception [broadcast] raises is a failed send. *)
Lemma broadcast_raises_SendError (m : Payload) (w : world) (e : exn) :
  fst (ConnectionManager.broadcast m w) = inl e -> exists c, e = SendError c.
Proof.
  unfold ConnectionManager.broadcast, bind, gets.
  generalize (active_connections w) as conns.
  intros conns; revert w.
  induction conns as [|c conns IH]; intros w.
  - simpl. discriminate.
  - simpl. unfold bind at 1.
    destruct (existsb (Nat.eqb c) (closed w)) eqn:Hc.
    + rewrite send_json_dead by (unfold alive; rewrite Hc; reflexivity).
      simpl. intros Heq. exists c. congruence.
    + rewrite send_json_alive by (unfold alive; rewrite Hc; reflexivity).
      apply IH.
Qed.

(** C1, as the code has it: [broadcast] serves the subscribers in registration
    order and has no failure handling of its own. When every transport is up,
    each subscriber receives the event and [broadcast] returns. When one is
    gone, the subscribers registered before it have received the event, the
    send error leaves [broadcast], the subscribers after it receive nothing,
    and the set of registered subscribers is what it was. *)
Theorem C1_broadcast_stops_at_first_failure (m : Payload) (w : world) :
  (forallb (alive w) (active_connections w) = true ->
   ConnectionManager.broadcast m w
   = (inr tt, set_sent (sent w ++ map (fun c => (c, m)) (active_connections w)) w))
  /\ (forall before c after,
        active_connections w = before ++ c :: after ->
        forallb (alive w) before = true ->
        alive w c = false ->
        ConnectionManager.broadcast m w
        = (inl (SendError c), set_sent (sent w ++ map (fun x => (x, m)) before) w)
        /\ active_connections (snd (ConnectionManager.broadcast m w))
           = active_connections w).
Proof.
  split.
  - apply broadcast_all_alive.
  - intros before c after Hconns Halive Hdead.
    rewrite (broadcast_first_dead m w before c after Hconns Halive Hdead).
    split; reflexivity.
Qed.

(** ** The market listener *)

Lemma float_of_int_raises_Exception (z : Z) (e : exn) :
  float_of_int z = inl e -> is_Exception e = true.
Proof.
  unfold float_of_int.
  destruct (is_infinity _); intros Heq; inversion Heq; reflexivity.
Qed.

Section ListenerFacts.
Context `{Builtins}.

Lemma py_float_raises_Exception (v : json) (e : exn) :
  py_float v = inl e -> is_Exception e = true.
Proof.
  destruct v; simpl; intros Heq;
    try (inversion Heq; reflexivity).
  - eapply float_of_int_raises_Exception; eassumption.
  - destruct (float_of_str s); inversion Heq; reflexivity.
Qed.

(** What escapes a round of the loop is never an [Exception]. *)
Lemma loop_body_raises_only_cancellation (w w' : world) (e : exn) :
  loop_body w = (inl e, w') -> is_Exception e = false.
Proof.
  unfold loop_body, try_except.
  destruct (handle_frame w) as [[e0 | []] w0].
  - destruct (is_Exception e0) eqn:He0.
    + unfold bind, logger, sleep, modify. intros Heq; inversion Heq.
    + intros Heq; inversion Heq; subst; exact He0.
  - intros Heq; inversion Heq.
Qed.

(** A frame that decodes to a tick is pushed, classified and then broadcast. *)
Lemma handle_frame_tick (w : world) (msg : string) (rest : list Frame)
    (members : list (string * json)) (vp vq : json) (price qty : float) :
  binance w = Text msg :: rest ->
  json_loads msg = Some (JObj members) ->
  assoc "p" members = Some vp -> py_float vp = inr price ->
  assoc "q" members = Some vq -> py_float vq = inr qty ->
  handle_frame w
  = ConnectionManager.broadcast (enriched_event w price qty) (after_push w rest price).
Proof.
  intros Hrecv Hjson Hp Hprice Hq Hqty.
  unfold handle_frame, bind at 1, recv. rewrite Hrecv.
  unfold bind at 1, loads. rewrite Hjson. unfold ret at 1.
  unfold bind at 1, lift at 1, py_contains. rewrite Hp.
  unfold bind at 1, lift at 1, py_getitem. rewrite Hp.
  unfold bind at 1, lift at 1. rewrite Hprice.
  unfold bind at 1, lift at 1. rewrite Hq.
  unfold bind at 1, lift at 1. rewrite Hqty.
  unfold bind at 1, modify at 1.
  unfold bind at 1, gets at 1.
  unfold bind at 1, gets at 1.
  reflexivity.
Qed.

(** A frame whose decoding raises [e] before the push ends in the handler. *)
Lemma loop_body_feed_error (w w0 : world) (e : exn) :
  handle_frame w = (inl e, w0) ->
  is_Exception e = true ->
  loop_body w = (inr tt, after_feed_error e w0).
Proof.
  intros Hraise He. unfold loop_body, try_except. rewrite Hraise, He.
  reflexivity.
Qed.

Lemma loop_body_closed (w : world) :
  binance w = [] ->
  loop_body w = (inr tt, after_feed_error ConnectionClosed w).
Proof.
  intros Hclosed. apply loop_body_feed_error; [| reflexivity].
  unfold handle_frame, bind at 1, recv. rewrite Hclosed. reflexivity.
Qed.

(** What one frame can do: the frame is taken off the connection, the window
    is left alone or gets one price, and some events may have been sent;
    nothing else moves, and what is raised is an [Exception]. *)
Lemma handle_frame_text (w : world) (msg : string) (rest : list Frame) :
  binance w = Text msg :: rest ->
  exists outcome window frames,
    handle_frame w
    = (outcome, set_sent (sent w ++ frames) (set_price_history window (set_binance rest w)))
    /\ (window = price_history w \/ exists x, window = deque_append (price_history w) x)
    /\ (forall e, outcome = inl e -> is_Exception e = true).
Proof.
  intros Hrecv.
  assert (Hquiet : forall (r : exn + unit),
             (forall e, r = inl e -> is_Exception e = true) ->
             exists outcome window frames,
               (r, set_binance rest w)
               = (outcome, set_sent (sent w ++ frames)
                             (set_price_history window (set_binance rest w)))
               /\ (window = price_history w
                   \/ exists x, window = deque_append (price_history w) x)
               /\ (forall e, outcome = inl e -> is_Exception e = true)).
  { intros r Hr. exists r, (price_history w), [].
    split; [| split; [left; reflexivity | exact Hr]].
    f_equal. destruct w; unfold set_sent, set_price_history, set_binance; simpl.
    rewrite app_nil_r. reflexivity. }
  unfold handle_frame, bind at 1, recv. rewrite Hrecv.
  unfold bind at 1, loads.
  destruct (json_loads msg) as [data |];
    [| apply Hquiet; intros e He; inversion He; reflexivity].
  unfold ret at 1. unfold bind at 1, lift at 1.
  destruct (py_contains "p" data) as [e | [|]] eqn:Hin.
  - apply Hquiet. intros e' He'. inversion He'; subst.
    destruct data; simpl in Hin; inversion Hin; reflexivity.
  - unfold bind at 1, lift at 1.
    destruct (py_getitem data "p") as [e | vp] eqn:Hp.
    { apply Hquiet. intros e' He'. inversion He'; subst.
      destruct data; simpl in Hp; try (inversion Hp; reflexivity).
      destruct (assoc "p" members); inversion Hp; reflexivity. }
    unfold bind at 1, lift at 1.
    destruct (py_float vp) as [e | price] eqn:Hprice.
    { apply Hquiet. intros e' He'. inversion He'; subst.
      exact (py_float_raises_Exception vp e' Hprice). }
    unfold bind at 1, lift at 1.
    destruct (py_getitem data "q") as [e | vq] eqn:Hq.
    { apply Hquiet. intros e' He'. inversion He'; subst.
      destruct data; simpl in Hq; try (inversion Hq; reflexivity).
      destruct (assoc "q" members); inversion Hq; reflexivity. }
    unfold bind at 1, lift at 1.
    destruct (py_float vq) as [e | qty] eqn:Hqty.
    { apply Hquiet. intros e' He'. inversion He'; subst.
      exact (py_float_raises_Exception vq e' Hqty). }
    unfold bind at 1, modify at 1.
    unfold bind at 1, gets at 1.
    unfold bind at 1, gets at 1.
    match goal with
    | |- context [ConnectionManager.broadcast ?ev ?w1] =>
        destruct (broadcast_only_sends ev w1) as [receivers Hsent];
        pose proof (broadcast_raises_SendError ev w1) as Hraised;
        destruct (ConnectionManager.broadcast ev w1) as [outcome w2];
        simpl in Hsent, Hraised; subst w2;
        exists outcome, (deque_append (price_history w) price),
               (map (fun c => (c, ev)) receivers)
    end.
    split; [reflexivity |]. split; [right; exists price; reflexivity |].
    intros e He. destruct (Hraised e He) as [c Hc]. subst e. reflexivity.
  - apply Hquiet. intros e He. inversion He.
Qed.

(** A round of the loop that does not meet a cancellation ends normally,
    whatever the frame: the loop goes on. It uses up one frame of the open
    connection and never opens another. *)
Lemma loop_body_continues (w : world) :
  hd_error (binance w) <> Some Cancel ->
  exists w',
    loop_body w = (inr tt, w')
    /\ binance w' = tl (binance w)
    /\ exchange w' = exchange w
    /\ (price_history w' = price_history w
        \/ exists x, price_history w' = deque_append (price_history w) x).
Proof.
  intros Hnocancel.
  destruct (binance w) as [| [msg |] rest] eqn:Hrecv.
  - exists (after_feed_error ConnectionClosed w).
    rewrite (loop_body_closed w Hrecv). simpl. rewrite Hrecv.
    repeat split. left; reflexivity.
  - destruct (handle_frame_text w msg rest Hrecv)
      as [outcome [window [frames [Hrun [Hwindow Hexn]]]]].
    unfold loop_body, try_except. rewrite Hrun.
    destruct outcome as [e | []].
    + rewrite (Hexn e eq_refl).
      eexists; split; [reflexivity |]. simpl. repeat split. exact Hwindow.
    + eexists; split; [reflexivity |]. simpl. repeat split. exact Hwindow.
  - exfalso. apply Hnocancel. reflexivity.
Qed.

Lemma no_cancel_tl (frames : list Frame) :
  ~ In Cancel frames -> ~ In Cancel (tl frames) /\ hd_error frames <> Some Cancel.
Proof.
  destruct frames as [|f frames]; simpl; intros Hno.
  - split; [tauto | discriminate].
  - split; [tauto |]. intros Heq; inversion Heq; subst. tauto.
Qed.

(** Without a cancellation the loop is still running after any number of
    rounds, and the connections the exchange would serve are untouched. *)
Lemma while_true_keeps_running (fuel : nat) :
  forall w : world,
    ~ In Cancel (binance w) ->
    fst (while_true fuel loop_body w) = inr tt
    /\ exchange (snd (while_true fuel loop_body w)) = exchange w.
Proof.
  induction fuel as [|fuel IH]; intros w Hno.
  - split; reflexivity.
  - destruct (no_cancel_tl (binance w) Hno) as [Htl Hhd].
    destruct (loop_body_continues w Hhd) as [w' [Hround [Hbinance [Hexchange _]]]].
    cbn [while_true]. unfold bind. rewrite Hround.
    rewrite <- Hbinance in Htl.
    destruct (IH w' Htl) as [Hrun Hsame].
    split; [exact Hrun | congruence].
Qed.


Lemma loop_body_tick_published (w : world) (msg : string) (rest : list Frame)
    (members : list (string * json)) (vp vq : json) (price qty : float) :
  binance w = Text msg :: rest ->
  json_loads msg = Some (JObj members) ->
  assoc "p" members = Some vp -> py_float vp = inr price ->
  assoc "q" members = Some vq -> py_float vq = inr qty ->
  forallb (alive w) (active_connections w) = true ->
  loop_body w
  = (inr tt,
     set_sent (sent w ++ map (fun c => (c, enriched_event w price qty))
                             (active_connections w))
              (after_push w rest price)).
Proof.
  intros Hrecv Hjson Hp Hprice Hq Hqty Halive.
  unfold loop_body, try_except.
  rewrite (handle_frame_tick w msg rest members vp vq price qty) by assumption.
  rewrite broadcast_all_alive by exact Halive. reflexivity.
Qed.

Lemma loop_body_tick_send_fails (w : world) (msg : string) (rest : list Frame)
    (members : list (string * json)) (vp vq : json) (price qty : float)
    (before : list WebSocket) (c : WebSocket) (after : list WebSocket) :
  binance w = Text msg :: rest ->
  json_loads msg = Some (JObj members) ->
  assoc "p" members = Some vp -> py_float vp = inr price ->
  assoc "q" members = Some vq -> py_float vq = inr qty ->
  active_connections w = before ++ c :: after ->
  forallb (alive w) before = true ->
  alive w c = false ->
  loop_body w
  = (inr tt,
     after_feed_error (SendError c)
       (set_sent (sent w ++ map (fun x => (x, enriched_event w price qty)) before)
                 (after_push w rest price))).
Proof.
  intros Hrecv Hjson Hp Hprice Hq Hqty Hconns Halive Hdead.
  apply loop_body_feed_error; [| reflexivity].
  rewrite (handle_frame_tick w msg rest members vp vq price qty) by assumption.
  exact (broadcast_first_dead _ (after_push w rest price) before c after
           Hconns Halive Hdead).
Qed.

(** Whether or not the publish succeeds, a tick leaves its price in the
    window, and the frames sent in that round all carry its event. *)
Lemma loop_body_tick_effects (w : world) (msg : string) (rest : list Frame)
    (members : list (string * json)) (vp vq : json) (price qty : float) :
  binance w = Text msg :: rest ->
  json_loads msg = Some (JObj members) ->
  assoc "p" members = Some vp -> py_float vp = inr price ->
  assoc "q" members = Some vq -> py_float vq = inr qty ->
  price_history (snd (loop_body w)) = deque_append (price_history w) price
  /\ exists receivers,
       sent (snd (loop_body w))
       = sent w ++ map (fun c => (c, enriched_event w price qty)) receivers.
Proof.
  intros Hrecv Hjson Hp Hprice Hq Hqty.
  unfold loop_body, try_except.
  rewrite (handle_frame_tick w msg rest members vp vq price qty) by assumption.
  destruct (broadcast_only_sends (enriched_event w price qty) (after_push w rest price))
    as [receivers Hframes].
  destruct (ConnectionManager.broadcast _ _) as [[e | []] w1];
    simpl in Hframes; subst w1; [destruct (is_Exception e) |];
    (split; [reflexivity | exists receivers; reflexivity]).
Qed.

(** C3, as the code has it: a tick is pushed into the window and classified
    before the publish is attempted, and a failed publish undoes nothing.
    When every delivery succeeds, push, classification and publish all
    complete and nothing is logged. When a delivery fails, the window keeps
    the tick's price, the event has reached only the subscribers registered
    before the failing one, and the failure is logged and followed by the
    5-second pause. *)
Theorem C3_push_precedes_publish (w : world) (msg : string) (rest : list Frame)
    (members : list (string * json)) (vp vq : json) (price qty : float) :
  binance w = Text msg :: rest ->
  json_loads msg = Some (JObj members) ->
  assoc "p" members = Some vp -> py_float vp = inr price ->
  assoc "q" members = Some vq -> py_float vq = inr qty ->
  let w' := snd (loop_body w) in
  let event := enriched_event w price qty in
  price_history w' = deque_append (price_history w) price
  /\ stats event = calculate_anomaly (price_history w') price
  /\ (forallb (alive w) (active_connections w) = true ->
      sent w' = sent w ++ map (fun c => (c, event)) (active_connections w)
      /\ log w' = log w /\ clock w' = clock w)
  /\ (forall before c after,
        active_connections w = before ++ c :: after ->
        forallb (alive w) before = true ->
        alive w c = false ->
        sent w' = sent w ++ map (fun x => (x, event)) before
        /\ log w' = log w ++ [LogError "feed_error" (SendError c)]
        /\ clock w' = (clock w + 5)%Z).
Proof.
  intros Hrecv Hjson Hp Hprice Hq Hqty w' event.
  assert (Hpush : price_history w' = deque_append (price_history w) price).
  { apply (loop_body_tick_effects w msg rest members vp vq price qty); assumption. }
  split; [exact Hpush |]. split; [rewrite Hpush; reflexivity |]. split.
  - intros Halive. subst w'.
    rewrite (loop_body_tick_published w msg rest members vp vq price qty) by assumption.
    repeat split.
  - intros before c after Hconns Halive Hdead. subst w'.
    rewrite (loop_body_tick_send_fails w msg rest members vp vq price qty before c after)
      by assumption.
    repeat split.
Qed.
(** C4, as the code has it: the presence of the key ["p"] alone decides whether
    a JSON object is taken for a tick. An object without ["p"] is dropped in
    silence. An object with ["p"] has both ["p"] and ["q"] converted with
    [float]; when both convert, the tick is processed; when ["q"] is missing
    or either value does not convert, the exception reaches the handler,
    which logs it and pauses 5 seconds, and nothing is pushed or published. *)
Theorem C4_price_key_selects_ticks (w : world) (msg : string) (rest : list Frame)
    (members : list (string * json)) :
  binance w = Text msg :: rest ->
  json_loads msg = Some (JObj members) ->
  (assoc "p" members = None -> loop_body w = (inr tt, set_binance rest w))
  /\ (forall vp vq price qty,
        assoc "p" members = Some vp -> py_float vp = inr price ->
        assoc "q" members = Some vq -> py_float vq = inr qty ->
        handle_frame w
        = ConnectionManager.broadcast (enriched_event w price qty) (after_push w rest price)
        /\ price_history (snd (loop_body w)) = deque_append (price_history w) price)
  /\ (forall vp price,
        assoc "p" members = Some vp -> py_float vp = inr price ->
        assoc "q" members = None ->
        loop_body w = (inr tt, after_feed_error (KeyError "q") (set_binance rest w)))
  /\ (forall vp e,
        assoc "p" members = Some vp -> py_float vp = inl e ->
        loop_body w = (inr tt, after_feed_error e (set_binance rest w)))
  /\ (forall vp vq price e,
        assoc "p" members = Some vp -> py_float vp = inr price ->
        assoc "q" members = Some vq -> py_float vq = inl e ->
        loop_body w = (inr tt, after_feed_error e (set_binance rest w))).
Proof.
  intros Hrecv Hjson.
  assert (Hstart : forall k : json -> M unit,
             bind recv (fun m => bind (loads m) k) w = k (JObj members) (set_binance rest w)).
  { intros k. unfold bind, recv, loads. rewrite Hrecv, Hjson. reflexivity. }
  split; [| split; [| split; [| split]]].
  - intros Hp. unfold loop_body, try_except, handle_frame. rewrite Hstart.
    unfold bind, lift, py_contains. rewrite Hp. reflexivity.
  - intros vp vq price qty Hp Hprice Hq Hqty. split.
    + apply (handle_frame_tick w msg rest members vp vq price qty); assumption.
    + apply (loop_body_tick_effects w msg rest members vp vq price qty); assumption.
  - intros vp price Hp Hprice Hq.
    apply loop_body_feed_error; [| reflexivity].
    unfold handle_frame. rewrite Hstart.
    unfold bind, lift, py_contains, py_getitem. rewrite Hp, Hprice, Hq. reflexivity.
  - intros vp e Hp Hprice.
    apply loop_body_feed_error; [| exact (py_float_raises_Exception vp e Hprice)].
    unfold handle_frame. rewrite Hstart.
    unfold bind, lift, py_contains, py_getitem. rewrite Hp, Hprice. reflexivity.
  - intros vp vq price e Hp Hprice Hq Hqty.
    apply loop_body_feed_error; [| exact (py_float_raises_Exception vq e Hqty)].
    unfold handle_frame. rewrite Hstart.
    unfold bind, lift, py_contains, py_getitem. rewrite Hp, Hprice, Hq, Hqty. reflexivity.
Qed.

(** C8: every event published for a tick carries the tick's volume
    [price * qty], and its whale flag is set exactly when that volume is
    strictly above 50000; when all transports are up each subscriber gets
    one such event. *)
Theorem C8_whale_iff_volume_above_50000 (w : world) (msg : string) (rest : list Frame)
    (members : list (string * json)) (vp vq : json) (price qty : float) :
  binance w = Text msg :: rest ->
  json_loads msg = Some (JObj members) ->
  assoc "p" members = Some vp -> py_float vp = inr price ->
  assoc "q" members = Some vq -> py_float vq = inr qty ->
  exists frames,
    sent (snd (loop_body w)) = sent w ++ frames
    /\ Forall (fun f => volume (snd f) = (price * qty)%float
                        /\ (is_whale (snd f) = true <-> (50000 <? price * qty)%float = true))
              frames
    /\ (forallb (alive w) (active_connections w) = true ->
        map fst frames = active_connections w).
Proof.
  intros Hrecv Hjson Hp Hprice Hq Hqty.
  destruct (loop_body_tick_effects w msg rest members vp vq price qty
              Hrecv Hjson Hp Hprice Hq Hqty) as [_ [receivers Hsent]].
  exists (map (fun c => (c, enriched_event w price qty)) receivers).
  split; [exact Hsent |]. split.
  - apply Forall_forall. intros f Hin.
    apply in_map_iff in Hin as [c [Hf _]]. subst f. simpl. tauto.
  - intros Halive.
    rewrite (loop_body_tick_published w msg rest members vp vq price qty) in Hsent
      by assumption.
    simpl in Hsent. apply app_inv_head in Hsent.
    rewrite <- Hsent, map_map. simpl. apply map_id.
Qed.

Lemma while_true_closed (fuel : nat) :
  forall w : world,
    binance w = [] ->
    while_true fuel loop_body w
    = (inr tt,
       set_clock (clock w + 5 * Z.of_nat fuel)%Z
         (set_log (log w ++ repeat (LogError "feed_error" ConnectionClosed) fuel) w)).
Proof.
  induction fuel as [|fuel IH]; intros w Hclosed.
  - simpl. unfold ret. f_equal.
    destruct w; unfold set_clock, set_log; simpl in *.
    rewrite app_nil_r, Z.add_0_r. reflexivity.
  - cbn [while_true]. unfold bind. rewrite (loop_body_closed w Hclosed).
    rewrite IH by exact Hclosed. f_equal.
    destruct w; unfold after_feed_error, set_clock, set_log.
    cbn [portfolio price_history active_connections closed sent log clock
         trades binance exchange repeat].
    f_equal; [rewrite <- app_assoc; reflexivity | lia].
Qed.

(** The window only ever changes by a push, in any round. *)
Lemma loop_body_window (w : world) :
  price_history (snd (loop_body w)) = price_history w
  \/ exists x, price_history (snd (loop_body w)) = deque_append (price_history w) x.
Proof.
  destruct (binance w) as [| [msg |] rest] eqn:Hrecv.
  - destruct (loop_body_continues w) as [w' [Hround [_ [_ Hwindow]]]].
    { rewrite Hrecv. discriminate. }
    rewrite Hround. exact Hwindow.
  - destruct (loop_body_continues w) as [w' [Hround [_ [_ Hwindow]]]].
    { rewrite Hrecv. discriminate. }
    rewrite Hround. exact Hwindow.
  - left. unfold loop_body, try_except, handle_frame, bind at 1, recv.
    rewrite Hrecv. reflexivity.
Qed.

(** However long the listener runs, its window is the result of pushing
    prices one by one. *)
Lemma while_true_window (fuel : nat) :
  forall (w : world) (pushed : list float),
    price_history w = pushes pushed ->
    exists more,
      price_history (snd (while_true fuel loop_body w)) = pushes (pushed ++ more).
Proof.
  induction fuel as [|fuel IH]; intros w pushed Hw.
  - exists []. rewrite app_nil_r. exact Hw.
  - cbn [while_true]. unfold bind.
    pose proof (loop_body_window w) as Hstep.
    destruct (loop_body w) as [[e | []] w']; simpl in Hstep.
    + destruct Hstep as [Hsame | [x Hpush]].
      * exists []. rewrite app_nil_r. simpl. congruence.
      * exists [x]. rewrite pushes_snoc. simpl. congruence.
    + destruct Hstep as [Hsame | [x Hpush]].
      * apply IH. congruence.
      * destruct (IH w' (pushed ++ [x])) as [more Hmore].
        { rewrite pushes_snoc. congruence. }
        exists (x :: more). rewrite Hmore, <- app_assoc. reflexivity.
Qed.

(** C2, as the code has it: an exception raised while a frame is read or
    decoded is caught, logged as feed_error and followed by a 5-second pause,
    after which the loop reads again; short of a cancellation the loop never
    ends and never lets an exception out. The connection is the one opened
    before the loop: no round opens another, and once it has dropped every
    round fails with ConnectionClosed, is logged and pauses 5 seconds. *)
Theorem C2_errors_caught_and_read_retried_on_same_connection :
  (forall w e w0,
      handle_frame w = (inl e, w0) ->
      is_Exception e = true ->
      loop_body w = (inr tt, after_feed_error e w0))
  /\ (forall fuel w,
        ~ In Cancel (binance w) ->
        fst (while_true fuel loop_body w) = inr tt
        /\ exchange (snd (while_true fuel loop_body w)) = exchange w)
  /\ (forall fuel w,
        binance w = [] ->
        while_true fuel loop_body w
        = (inr tt,
           set_clock (clock w + 5 * Z.of_nat fuel)%Z
             (set_log (log w ++ repeat (LogError "feed_error" ConnectionClosed) fuel) w))).
Proof.
  split; [| split].
  - intros w e w0. apply loop_body_feed_error.
  - intros fuel w. apply while_true_keeps_running.
  - intros fuel w. apply while_true_closed.
Qed.
End ListenerFacts.

(** ** The trade endpoint *)

(** C9: a BUY the dollars cannot pay for, or a SELL of more bitcoin than is
    held, is answered with HTTP 400 before anything is touched: portfolio,
    table of trades and log are what they were. *)
Theorem C9_rejected_trade_changes_nothing (type : string) (price : float) (w : world) :
  (type = "BUY" /\ (usd (portfolio w) <? price * amount)%float = true)
  \/ (type = "SELL" /\ (btc (portfolio w) <? amount)%float = true) ->
  exists detail, execute_trade type price w = (inl (HTTPException 400 detail), w).
Proof.
  intros [[Hty Hpoor] | [Hty Hpoor]]; subst type; unfold execute_trade.
  - exists "Insufficient Funds".
    cbn [String.eqb Ascii.eqb Bool.eqb andb]. unfold bind at 1 2, gets at 1.
    rewrite Hpoor. reflexivity.
  - exists "Insufficient BTC".
    cbn [String.eqb Ascii.eqb Bool.eqb andb]. unfold bind at 1 2, gets at 1.
    rewrite Hpoor. reflexivity.
Qed.

(** C10: a trade whose type is neither BUY nor SELL moves no money, yet it is
    written to the table under that type with the next id, and the caller is
    told it was executed. *)
Theorem C10_unknown_type_is_recorded (type : string) (price : float) (w : world) :
  type <> "BUY" -> type <> "SELL" ->
  let (outcome, w') := execute_trade type price w in
  let id := (1 + Z.of_nat (List.length (trades w)))%Z in
  portfolio w' = portfolio w
  /\ outcome = inr {| resp_status := "executed"; trade_id := id;
                      resp_portfolio := portfolio w |}
  /\ trades w' = trades w ++ [{| tr_id := id; tr_type := type; tr_price := price;
                                 tr_amount := amount;
                                 tr_timestamp := clock w |}].
Proof.
  intros Hbuy Hsell. unfold execute_trade.
  apply String.eqb_neq in Hbuy, Hsell. rewrite Hbuy, Hsell.
  repeat split.
Qed.

(** * Further properties of the code *)

(** ** Registering and unregistering subscribers *)

Lemma set_active_connections_same (w : world) :
  set_active_connections (active_connections w) w = w.
Proof. destruct w; reflexivity. Qed.

Lemma list_remove_absent (x : WebSocket) (l : list WebSocket) :
  ~ In x l -> list_remove x l = None.
Proof.
  induction l as [|y l IH]; intros Hout; [reflexivity |].
  simpl. destruct (Nat.eqb_spec x y) as [Heq | Hne].
  - exfalso. apply Hout. left. symmetry. exact Heq.
  - rewrite IH; [reflexivity |]. intros Hin. apply Hout. right. exact Hin.
Qed.

Lemma list_remove_first (x : WebSocket) (before after : list WebSocket) :
  ~ In x before ->
  list_remove x (before ++ x :: after) = Some (before ++ after).
Proof.
  induction before as [|y before IH]; intros Hout; simpl.
  - rewrite Nat.eqb_refl. reflexivity.
  - destruct (Nat.eqb_spec x y) as [Heq | Hne].
    + exfalso. apply Hout. left. symmetry. exact Heq.
    + rewrite IH; [reflexivity |]. intros Hin. apply Hout. right. exact Hin.
Qed.

Lemma list_remove_present (x : WebSocket) (l : list WebSocket) :
  In x l -> exists l', list_remove x l = Some l'.
Proof.
  induction l as [|y l IH]; intros Hin; [destruct Hin |].
  simpl. destruct (Nat.eqb_spec x y) as [Heq | Hne].
  - eexists; reflexivity.
  - destruct Hin as [Heq | Hin]; [congruence |].
    destruct (IH Hin) as [l' Hl']. rewrite Hl'. eexists; reflexivity.
Qed.

(** X1: [disconnect] raises ValueError exactly when the socket is not
    registered, and then leaves everything as it was. So it cannot be repeated
    at will: for a socket registered once, unregistering it twice in a row
    succeeds the first time and raises the second, with the socket gone and the
    others in place. *)
Theorem disconnect_raises_iff_unregistered (websocket : WebSocket) (w : world) :
  (fst (ConnectionManager.disconnect websocket w) = inl ValueError
   <-> ~ In websocket (active_connections w))
  /\ (~ In websocket (active_connections w) ->
      ConnectionManager.disconnect websocket w = (inl ValueError, w))
  /\ (forall before after,
        active_connections w = before ++ websocket :: after ->
        ~ In websocket before -> ~ In websocket after ->
        ConnectionManager.disconnect websocket w
        = (inr tt, set_active_connections (before ++ after) w)
        /\ (ConnectionManager.disconnect websocket ;;
            ConnectionManager.disconnect websocket)%py w
           = (inl ValueError, set_active_connections (before ++ after) w)).
Proof.
  split; [split | split].
  - unfold ConnectionManager.disconnect. intros Hraised Hin.
    destruct (list_remove_present websocket _ Hin) as [l' Hl'].
    rewrite Hl' in Hraised. discriminate Hraised.
  - unfold ConnectionManager.disconnect.
    intros Hout. rewrite (list_remove_absent _ _ Hout). reflexivity.
  - unfold ConnectionManager.disconnect.
    intros Hout. rewrite (list_remove_absent _ _ Hout). reflexivity.
  - intros before after Hconns Hbefore Hafter.
    assert (Hfirst : ConnectionManager.disconnect websocket w
                     = (inr tt, set_active_connections (before ++ after) w)).
    { unfold ConnectionManager.disconnect.
      rewrite Hconns, (list_remove_first _ _ _ Hbefore). reflexivity. }
    split; [exact Hfirst |].
    unfold bind. rewrite Hfirst.
    unfold ConnectionManager.disconnect. simpl active_connections.
    rewrite list_remove_absent; [reflexivity |].
    intros Hin. apply in_app_or in Hin. tauto.
Qed.

(** X2: [disconnect] takes out the first registration of the socket and
    nothing else: the other subscribers stay, in their order. *)
Theorem disconnect_removes_first_registration
    (websocket : WebSocket) (w : world) (before after : list WebSocket) :
  active_connections w = before ++ websocket :: after ->
  ~ In websocket before ->
  ConnectionManager.disconnect websocket w
  = (inr tt, set_active_connections (before ++ after) w).
Proof.
  intros Hconns Hout. unfold ConnectionManager.disconnect.
  rewrite Hconns, (list_remove_first _ _ _ Hout). reflexivity.
Qed.

Lemma receive_loop_texts (websocket : WebSocket) (texts : list string)
    (rest : list Incoming) (w : world) :
  receive_loop websocket (map IncomingText texts ++ rest) w
  = receive_loop websocket rest w.
Proof. induction texts as [|t texts IH]; simpl; auto. Qed.

(** X3: a session of a socket that was not registered, ended by the client's
    disconnect, leaves the process exactly as it found it, whatever texts the
    client sent meanwhile: they are read and dropped. *)
Theorem session_ended_by_disconnect_leaves_no_trace
    (websocket : WebSocket) (texts : list string) (later : list Incoming) (w : world) :
  ~ In websocket (active_connections w) ->
  websocket_endpoint websocket (map IncomingText texts ++ IncomingDisconnect :: later) w
  = (inr Ended, w).
Proof.
  intros Hout. unfold websocket_endpoint, bind at 1, ConnectionManager.connect, modify.
  rewrite receive_loop_texts. simpl. unfold bind, ConnectionManager.disconnect.
  simpl active_connections.
  rewrite (list_remove_first websocket (active_connections w) [] Hout), app_nil_r.
  destruct w; reflexivity.
Qed.

(** X4: only the client's disconnect unregisters a socket. While the handler
    waits for the next text, and after any other exception has ended it, the
    socket is still registered, so [broadcast] will go on sending to it. *)
Theorem session_without_disconnect_stays_registered
    (websocket : WebSocket) (texts : list string) (w : world) :
  websocket_endpoint websocket (map IncomingText texts) w
  = (inr Waiting, set_active_connections (active_connections w ++ [websocket]) w)
  /\ forall e later,
       websocket_endpoint websocket (map IncomingText texts ++ IncomingFailure e :: later) w
       = (inl e, set_active_connections (active_connections w ++ [websocket]) w).
Proof.
  split.
  - unfold websocket_endpoint, bind, ConnectionManager.connect, modify.
    rewrite <- (app_nil_r (map IncomingText texts)), receive_loop_texts. reflexivity.
  - intros e later.
    unfold websocket_endpoint, bind, ConnectionManager.connect, modify.
    rewrite receive_loop_texts. reflexivity.
Qed.

(** ** The anomaly engine, further *)

Lemma length_deque_append (d : list float) (x : float) :
  List.length (deque_append d x)
  = if (List.length d <? maxlen)%nat then S (List.length d) else List.length d.
Proof.
  unfold deque_append.
  destruct (Nat.ltb_spec (List.length d) maxlen) as [Hlt | Hge];
    rewrite length_app; simpl.
  - lia.
  - destruct d as [|y d]; simpl in *; [unfold maxlen in Hge; lia | lia].
Qed.

Section AnalyticsMore.
Context `{Builtins}.

Lemma calculate_anomaly_not_calibrating (price_history : list float) (current_price : float) :
  (20 <= List.length price_history)%nat ->
  status (calculate_anomaly price_history current_price) <> CALIBRATING.
Proof.
  intros Hlen. unfold calculate_anomaly.
  destruct (Nat.ltb_spec (List.length price_history) 20) as [Hlt | _]; [lia |].
  destruct (np_std price_history =? 0)%float; simpl; [discriminate |].
  destruct (2 <? _)%float; [discriminate |].
  destruct (_ <? -2)%float; discriminate.
Qed.

(** X5: the verdict is CALIBRATING exactly on windows of fewer than 20 prices,
    and STABLE exactly on windows of at least 20 prices whose standard
    deviation compares equal to zero; no price, however extreme, changes
    either. *)
Theorem calibrating_and_stable_depend_on_window_only
    (price_history : list float) (current_price : float) :
  (status (calculate_anomaly price_history current_price) = CALIBRATING
   <-> (List.length price_history < 20)%nat)
  /\ (status (calculate_anomaly price_history current_price) = STABLE
      <-> (20 <= List.length price_history)%nat
          /\ (np_std price_history =? 0)%float = true).
Proof.
  split; split.
  - intros Hstatus.
    destruct (Nat.lt_ge_cases (List.length price_history) 20) as [Hlt | Hge];
      [exact Hlt |].
    exfalso. exact (calculate_anomaly_not_calibrating _ current_price Hge Hstatus).
  - intros Hlt. rewrite (calculate_anomaly_calibrating _ current_price Hlt). reflexivity.
  - unfold calculate_anomaly.
    destruct (Nat.ltb_spec (List.length price_history) 20) as [Hlt | Hge];
      [discriminate |].
    destruct (np_std price_history =? 0)%float; simpl.
    + intros _. split; [exact Hge | reflexivity].
    + destruct (2 <? _)%float; [discriminate |].
      destruct (_ <? -2)%float; discriminate.
  - intros [Hge Hstd]. unfold calculate_anomaly.
    destruct (Nat.ltb_spec (List.length price_history) 20) as [Hlt | _]; [lia |].
    rewrite Hstd. reflexivity.
Qed.
End AnalyticsMore.

(** ** The market listener, further *)

Section ListenerMore.
Context `{Builtins}.

(** A round of the loop leaves the portfolio, the trades, the subscribers and
    the exchange alone. *)
Lemma loop_body_untouched (w : world) :
  let w' := snd (loop_body w) in
  portfolio w' = portfolio w /\ trades w' = trades w
  /\ active_connections w' = active_connections w /\ closed w' = closed w
  /\ exchange w' = exchange w.
Proof.
  destruct (binance w) as [| [msg |] rest] eqn:Hrecv.
  - rewrite (loop_body_closed w Hrecv). simpl. repeat split.
  - destruct (handle_frame_text w msg rest Hrecv)
      as [outcome [window [frames [Hrun _]]]].
    unfold loop_body, try_except. rewrite Hrun.
    destruct outcome as [e | []]; [destruct (is_Exception e) |]; simpl; repeat split.
  - assert (Hrun : loop_body w = (inl CancelledError, set_binance rest w)).
    { unfold loop_body, try_except, handle_frame, bind at 1, recv.
      rewrite Hrecv. reflexivity. }
    rewrite Hrun. simpl. repeat split.
Qed.

Lemma while_true_untouched (fuel : nat) :
  forall w : world,
    let w' := snd (while_true fuel loop_body w) in
    portfolio w' = portfolio w /\ trades w' = trades w
    /\ active_connections w' = active_connections w /\ closed w' = closed w
    /\ exchange w' = exchange w.
Proof.
  induction fuel as [|fuel IH]; intros w; [repeat split |].
  cbn [while_true]. unfold bind.
  pose proof (loop_body_untouched w) as Hround.
  destruct (loop_body w) as [[e | []] w1]; simpl in Hround.
  - exact Hround.
  - specialize (IH w1). simpl in IH.
    destruct Hround as [Hp [Ht [Ha [Hc Hx]]]], IH as [Hp' [Ht' [Ha' [Hc' Hx']]]].
    repeat split; congruence.
Qed.

(** The listener on a world whose exchange serves [frames] first. *)
Lemma listen_unfold (fuel : nat) (w : world) (frames : list Frame) (later : list (list Frame)) :
  exchange w = frames :: later ->
  listen_to_crypto_market fuel w
  = match while_true fuel loop_body
            (set_log (log w ++ [LogInfo "connected_to_binance"])
               (set_exchange later (set_binance frames w))) with
    | (inl e, w') => (inl e, set_binance [] w')
    | r => r
    end.
Proof.
  intros Hexchange. unfold listen_to_crypto_market, with_connection.
  rewrite Hexchange. reflexivity.
Qed.

(** X6: the listener asks the exchange for a connection once and never again:
    whatever it reads and however long it runs, the connections left to serve
    are all but the first. *)
Theorem listener_connects_exactly_once (fuel : nat) (w : world) :
  exchange (snd (listen_to_crypto_market fuel w)) = tl (exchange w).
Proof.
  destruct (exchange w) as [|frames later] eqn:Hexchange.
  - unfold listen_to_crypto_market, with_connection. rewrite Hexchange.
    simpl. exact Hexchange.
  - rewrite (listen_unfold fuel w frames later Hexchange).
    match goal with
    | |- context [while_true fuel loop_body ?w0] =>
        pose proof (while_true_untouched fuel w0) as Hsame;
        destruct (while_true fuel loop_body w0) as [[e | []] w']
    end; simpl in Hsame |- *; apply Hsame.
Qed.

(** X7: the listener never touches the portfolio, the table of trades or the
    set of registered subscribers, and never closes a subscriber's transport. *)
Theorem listener_leaves_ledger_and_registry_alone (fuel : nat) (w : world) :
  let w' := snd (listen_to_crypto_market fuel w) in
  portfolio w' = portfolio w /\ trades w' = trades w
  /\ active_connections w' = active_connections w /\ closed w' = closed w.
Proof.
  destruct (exchange w) as [|frames later] eqn:Hexchange.
  - unfold listen_to_crypto_market, with_connection. rewrite Hexchange.
    repeat split.
  - rewrite (listen_unfold fuel w frames later Hexchange).
    match goal with
    | |- context [while_true fuel loop_body ?w0] =>
        pose proof (while_true_untouched fuel w0) as Hsame;
        destruct (while_true fuel loop_body w0) as [[e | []] w']
    end; simpl in Hsame |- *;
      destruct Hsame as [Hp [Ht [Ha [Hc _]]]]; repeat split; assumption.
Qed.

Lemma while_true_cancelled (texts : list string) :
  forall (fuel : nat) (w : world) (rest : list Frame),
    binance w = map Text texts ++ Cancel :: rest ->
    (List.length texts < fuel)%nat ->
    exists w',
      while_true fuel loop_body w = (inl CancelledError, w')
      /\ binance w' = rest.
Proof.
  induction texts as [|t texts IH]; intros fuel w rest Hrecv Hfuel;
    (destruct fuel as [|fuel]; [simpl in Hfuel; lia |]).
  - exists (set_binance rest w).
    cbn [while_true]. unfold bind, loop_body, try_except, handle_frame, bind at 1, recv.
    rewrite Hrecv. split; reflexivity.
  - simpl in Hrecv.
    destruct (loop_body_continues w) as [w1 [Hround [Hbinance _]]].
    { rewrite Hrecv. discriminate. }
    rewrite Hrecv in Hbinance. simpl in Hbinance.
    destruct (IH fuel w1 rest Hbinance) as [w' [Hrun Hrest]].
    { simpl in Hfuel. lia. }
    exists w'. cbn [while_true]. unfold bind. rewrite Hround.
    split; assumption.
Qed.

(** X8: cancelling the task ends the listener. Whatever frames came before,
    readable or not, the round that meets the cancellation lets CancelledError
    out of the loop, and the upstream connection is closed on the way out. *)
Theorem cancellation_ends_the_listener (fuel : nat) (w : world)
    (texts : list string) (rest : list Frame) (later : list (list Frame)) :
  exchange w = (map Text texts ++ Cancel :: rest) :: later ->
  (List.length texts < fuel)%nat ->
  fst (listen_to_crypto_market fuel w) = inl CancelledError
  /\ binance (snd (listen_to_crypto_market fuel w)) = [].
Proof.
  intros Hexchange Hfuel.
  rewrite (listen_unfold fuel w _ later Hexchange).
  match goal with
  | |- context [while_true fuel loop_body ?w0] =>
      destruct (while_true_cancelled texts fuel w0 rest eq_refl Hfuel)
        as [w' [Hrun _]]
  end.
  rewrite Hrun. split; reflexivity.
Qed.

Lemma deque_append_bounded (d : list float) (x : float) :
  (List.length d <= maxlen)%nat -> (List.length (deque_append d x) <= maxlen)%nat.
Proof.
  intros Hd. rewrite length_deque_append.
  destruct (Nat.ltb_spec (List.length d) maxlen); lia.
Qed.

Lemma while_true_window_bounded (fuel : nat) :
  forall w : world,
    (List.length (price_history w) <= maxlen)%nat ->
    (List.length (price_history (snd (while_true fuel loop_body w))) <= maxlen)%nat.
Proof.
  induction fuel as [|fuel IH]; intros w Hw; [exact Hw |].
  cbn [while_true]. unfold bind.
  pose proof (loop_body_window w) as Hstep.
  destruct (loop_body w) as [[e | []] w1]; simpl in Hstep |- *.
  - destruct Hstep as [Hsame | [x Hpush]].
    + rewrite Hsame. exact Hw.
    + rewrite Hpush. apply deque_append_bounded. exact Hw.
  - apply IH. destruct Hstep as [Hsame | [x Hpush]].
    + rewrite Hsame. exact Hw.
    + rewrite Hpush. apply deque_append_bounded. exact Hw.
Qed.

(** X9: a window of at most 100 prices stays one: however long the listener
    runs and whatever it reads, [price_history] never grows beyond 100. *)
Theorem listener_keeps_window_within_100 (fuel : nat) (w : world) :
  (List.length (price_history w) <= 100)%nat ->
  (List.length (price_history (snd (listen_to_crypto_market fuel w))) <= 100)%nat.
Proof.
  intros Hw.
  destruct (exchange w) as [|frames later] eqn:Hexchange.
  - unfold listen_to_crypto_market, with_connection. rewrite Hexchange. exact Hw.
  - rewrite (listen_unfold fuel w frames later Hexchange).
    match goal with
    | |- context [while_true fuel loop_body ?w0] =>
        pose proof (while_true_window_bounded fuel w0 Hw) as Hbound;
        destruct (while_true fuel loop_body w0) as [[e | []] w']
    end; exact Hbound.
Qed.
End ListenerMore.

Section ListenerDelivery.
Context `{Builtins}.

Lemma deliveries_app (a b : list (WebSocket * Payload)) :
  deliveries (a ++ b) = deliveries a ++ deliveries b.
Proof. apply map_app. Qed.

Lemma deliveries_same_event (m : Payload) (conns : list WebSocket) :
  deliveries (map (fun c => (c, m)) conns) = map (fun c => (c, price m)) conns.
Proof. unfold deliveries. rewrite map_map. reflexivity. Qed.

(** X10: a run of ticks read while every transport is up is delivered tick by
    tick: each subscriber is sent the prices in the order they arrived, the
    subscribers being served in registration order within a tick; the prices
    are pushed into the window in the same order, and nothing is logged and no
    pause taken. *)
Theorem ticks_are_delivered_in_arrival_order
    (ticks : list (string * (float * float))) :
  forall (w : world) (rest : list Frame),
    Forall (fun t => decodes_to (fst t) (fst (snd t)) (snd (snd t))) ticks ->
    binance w = map (fun t => Text (fst t)) ticks ++ rest ->
    forallb (alive w) (active_connections w) = true ->
    exists w',
      while_true (List.length ticks) loop_body w = (inr tt, w')
      /\ binance w' = rest
      /\ price_history w'
         = fold_left deque_append (map (fun t => fst (snd t)) ticks) (price_history w)
      /\ deliveries (sent w')
         = deliveries (sent w)
           ++ flat_map (fun t => map (fun c => (c, fst (snd t))) (active_connections w))
                       ticks
      /\ log w' = log w /\ clock w' = clock w.
Proof.
  induction ticks as [|[msg [tick_price qty]] ticks IH]; intros w rest Hticks Hrecv Halive.
  - exists w. simpl. rewrite app_nil_r. repeat split. exact Hrecv.
  - inversion Hticks as [| t ts Hfirst Hothers]; subst.
    destruct Hfirst as [members [vp [vq [Hjson [Hp [Hprice [Hq Hqty]]]]]]].
    simpl in Hjson, Hp, Hprice, Hq, Hqty, Hrecv.
    pose proof (loop_body_tick_published w msg _ members vp vq tick_price qty
                  Hrecv Hjson Hp Hprice Hq Hqty Halive) as Hround.
    match type of Hround with
    | _ = (_, ?w1) =>
        destruct (IH w1 rest Hothers eq_refl Halive)
          as [w' [Hrun [Hrest [Hwindow [Hsent [Hlog Hclock]]]]]]
    end.
    exists w'. cbn [while_true List.length]. unfold bind. rewrite Hround.
    split; [exact Hrun |]. split; [exact Hrest |].
    split; [exact Hwindow |]. split; [| split; [exact Hlog | exact Hclock]].
    rewrite Hsent. simpl sent. simpl active_connections.
    rewrite deliveries_app, deliveries_same_event, <- app_assoc. reflexivity.
Qed.

(** X11: the listener pushes a tick before it classifies it, so the window
    the tick is judged against already holds its price. The events of the
    first 19 ticks are therefore CALIBRATING, with z-score 0 and the tick's own
    price as mean; from the 20th price on no event is CALIBRATING. *)
Theorem warm_up_lasts_19_ticks (w : world) (msg : string) (rest : list Frame)
    (tick_price qty : float) :
  binance w = Text msg :: rest ->
  decodes_to msg tick_price qty ->
  exists frames,
    sent (snd (loop_body w)) = sent w ++ frames
    /\ ((List.length (price_history w) < 19)%nat ->
        Forall (fun f => stats (snd f)
                         = {| status := CALIBRATING; z_score := 0;
                              mean_price := tick_price |}) frames)
    /\ ((19 <= List.length (price_history w))%nat ->
        Forall (fun f => status (stats (snd f)) <> CALIBRATING) frames).
Proof.
  intros Hrecv [members [vp [vq [Hjson [Hp [Hprice [Hq Hqty]]]]]]].
  destruct (loop_body_tick_effects w msg rest members vp vq tick_price qty
              Hrecv Hjson Hp Hprice Hq Hqty) as [_ [receivers Hsent]].
  exists (map (fun c => (c, enriched_event w tick_price qty)) receivers).
  split; [exact Hsent |].
  split; intros Hlen; apply Forall_forall; intros f Hin;
    apply in_map_iff in Hin as [c [Hf _]]; subst f; simpl.
  - apply calculate_anomaly_calibrating.
    rewrite length_deque_append.
    destruct (Nat.ltb_spec (List.length (price_history w)) maxlen);
      unfold maxlen in *; lia.
  - apply calculate_anomaly_not_calibrating.
    rewrite length_deque_append.
    destruct (Nat.ltb_spec (List.length (price_history w)) maxlen);
      unfold maxlen in *; lia.
Qed.

(** X12: a frame that is not a JSON object never reaches the window or the
    subscribers. Text that is not JSON is logged as JSONDecodeError. A JSON
    string or list without ["p"] in it is dropped in silence; a JSON string
    containing the letter p, a list holding the string ["p"], and any number,
    boolean or null end in TypeError. Every logged case costs the 5-second
    pause. *)
Theorem frames_that_are_no_object (w : world) (msg : string) (rest : list Frame) :
  binance w = Text msg :: rest ->
  (json_loads msg = None ->
   loop_body w = (inr tt, after_feed_error JSONDecodeError (set_binance rest w)))
  /\ (forall data,
        json_loads msg = Some data ->
        (forall members, data <> JObj members) ->
        (py_contains "p" data = inr false
         /\ loop_body w = (inr tt, set_binance rest w))
        \/ (py_contains "p" data <> inr false
            /\ loop_body w = (inr tt, after_feed_error TypeError (set_binance rest w)))).
Proof.
  intros Hrecv. split.
  - intros Hjson. apply loop_body_feed_error; [| reflexivity].
    unfold handle_frame, bind, recv, loads. rewrite Hrecv, Hjson. reflexivity.
  - intros data Hjson Hshape.
    assert (Hstart : forall k : json -> M unit,
               bind recv (fun m => bind (loads m) k) w = k data (set_binance rest w)).
    { intros k. unfold bind, recv, loads. rewrite Hrecv, Hjson. reflexivity. }
    destruct (py_contains "p" data) as [e | [|]] eqn:Hin.
    + right. split; [discriminate |].
      assert (e = TypeError)
        by (destruct data; simpl in Hin; congruence).
      subst e. apply loop_body_feed_error; [| reflexivity].
      unfold handle_frame. rewrite Hstart. unfold bind, lift. rewrite Hin. reflexivity.
    + right. split; [discriminate |].
      apply loop_body_feed_error; [| reflexivity].
      unfold handle_frame. rewrite Hstart. unfold bind, lift. rewrite Hin.
      destruct data; try reflexivity.
      exfalso. exact (Hshape members eq_refl).
    + left. split; [reflexivity |].
      unfold loop_body, try_except, handle_frame. rewrite Hstart.
      unfold bind, lift. rewrite Hin. reflexivity.
Qed.
End ListenerDelivery.

(** ** The trade endpoint, further *)

(** X13: [execute_trade] checks the funds, then changes the portfolio, then
    writes the row, and nothing is ever rolled back. A refused trade raises
    HTTP 400 and changes nothing, whatever the database would do. Otherwise
    the portfolio is changed first; if commit and refresh go through, exactly
    one row (the type and price asked for, size 0.1, the next id) is appended,
    the new dollar balance is logged and the answer carries that id and the new
    portfolio; if the commit raises, its exception leaves [execute_trade] with
    the portfolio already changed and no row and no log entry; if the refresh
    raises, likewise, with the row written. With a database that answers, this
    is [execute_trade]. *)
Theorem execute_trade_moves_money_before_it_records
    (db : Database) (type : string) (price : float) (w : world) :
  let row := {| tr_id := (1 + Z.of_nat (List.length (trades w)))%Z; tr_type := type;
                tr_price := price; tr_amount := amount; tr_timestamp := clock w |} in
  execute_trade_on DbOk type price w = execute_trade type price w
  /\ match settle type price (portfolio w) with
     | None =>
         exists detail,
           execute_trade_on db type price w = (inl (HTTPException 400 detail), w)
     | Some p' =>
         match db with
         | DbOk =>
             execute_trade_on db type price w
             = (inr {| resp_status := "executed"; trade_id := tr_id row;
                       resp_portfolio := p' |},
                set_log (log w ++ [LogTrade type price (usd p')])
                  (set_trades (trades w ++ [row]) (set_portfolio p' w)))
         | CommitFails e =>
             execute_trade_on db type price w = (inl e, set_portfolio p' w)
         | RefreshFails e =>
             execute_trade_on db type price w
             = (inl e, set_trades (trades w ++ [row]) (set_portfolio p' w))
         end
     end.
Proof.
  intros row. split; [reflexivity |].
  unfold settle.
  destruct (String.eqb type "BUY") eqn:Hbuy.
  - destruct (usd (portfolio w) <? price * amount)%float eqn:Hfunds.
    + eexists. unfold execute_trade_on. rewrite Hbuy.
      unfold bind at 1 2, gets at 1. rewrite Hfunds. reflexivity.
    + destruct db; unfold execute_trade_on; rewrite Hbuy;
        unfold bind at 1 2, gets at 1; rewrite Hfunds; reflexivity.
  - destruct (String.eqb type "SELL") eqn:Hsell.
    + destruct (btc (portfolio w) <? amount)%float eqn:Hfunds.
      * eexists. unfold execute_trade_on. rewrite Hbuy, Hsell.
        unfold bind at 1 2, gets at 1. rewrite Hfunds. reflexivity.
      * destruct db; unfold execute_trade_on; rewrite Hbuy, Hsell;
          unfold bind at 1 2, gets at 1; rewrite Hfunds; reflexivity.
    + destruct db; unfold execute_trade_on; rewrite Hbuy, Hsell;
        destruct w; reflexivity.
Qed.

(** X14: [execute_trade] never touches the feed: window, subscribers,
    transports, frames sent, upstream connection and clock are the same after
    any call. *)
Theorem execute_trade_leaves_the_feed_alone
    (type : string) (price : float) (w : world) :
  let w' := snd (execute_trade type price w) in
  price_history w' = price_history w
  /\ active_connections w' = active_connections w
  /\ closed w' = closed w /\ sent w' = sent w
  /\ binance w' = binance w /\ exchange w' = exchange w
  /\ clock w' = clock w.
Proof.
  intros w'. subst w'.
  destruct (execute_trade type price w) as [outcome w'] eqn:Hrun. simpl.
  unfold execute_trade in Hrun.
  destruct (String.eqb type "BUY").
  - unfold bind at 1 2, gets at 1 in Hrun.
    destruct (usd (portfolio w) <? price * amount)%float;
      inversion Hrun; repeat split.
  - destruct (String.eqb type "SELL").
    + unfold bind at 1 2, gets at 1 in Hrun.
      destruct (btc (portfolio w) <? amount)%float;
        inversion Hrun; repeat split.
    + inversion Hrun; repeat split.
Qed.

Lemma Prim2SF_nan : Prim2SF nan = S754_nan.
Proof. vm_compute. reflexivity. Qed.

Lemma ltb_nan_r (x : float) : (x <? nan)%float = false.
Proof.
  rewrite ltb_spec, Prim2SF_nan. unfold SFltb.
  destruct (Prim2SF x); reflexivity.
Qed.

Lemma ltb_nan_l (x : float) : (nan <? x)%float = false.
Proof. rewrite ltb_spec, Prim2SF_nan. reflexivity. Qed.

Lemma mul_nan_l (y : float) : (nan * y)%float = nan.
Proof.
  rewrite <- (SF2Prim_Prim2SF (nan * y)), mul_spec, Prim2SF_nan.
  vm_compute. reflexivity.
Qed.

Lemma sub_nan_r (x : float) : (x - nan)%float = nan.
Proof.
  rewrite <- (SF2Prim_Prim2SF (x - nan)), sub_spec, Prim2SF_nan.
  destruct (Prim2SF x) as [s | s | | s m e]; try destruct s; vm_compute; reflexivity.
Qed.

Lemma sub_nan_l (y : float) : (nan - y)%float = nan.
Proof.
  rewrite <- (SF2Prim_Prim2SF (nan - y)), sub_spec, Prim2SF_nan.
  vm_compute. reflexivity.
Qed.

(** X15: the price is not checked for NaN. A BUY at a NaN price is never
    refused, whatever the balance, and leaves a NaN dollar balance; and once
    the dollar balance is NaN no BUY is refused any more, at any price, and
    the balance stays NaN. *)
Theorem nan_price_poisons_the_dollar_balance (w : world) :
  (exists response w',
      execute_trade "BUY" nan w = (inr response, w')
      /\ usd (portfolio w') = nan)
  /\ (usd (portfolio w) = nan ->
      forall price,
      exists response w',
        execute_trade "BUY" price w = (inr response, w')
        /\ usd (portfolio w') = nan).
Proof.
  split.
  - unfold execute_trade. cbn [String.eqb Ascii.eqb Bool.eqb andb].
    unfold bind at 1 2, gets at 1.
    rewrite mul_nan_l, ltb_nan_r.
    do 2 eexists. split; [reflexivity |]. simpl. apply sub_nan_r.
  - intros Hnan price. unfold execute_trade. cbn [String.eqb Ascii.eqb Bool.eqb andb].
    unfold bind at 1 2, gets at 1.
    rewrite Hnan, ltb_nan_l.
    do 2 eexists. split; [reflexivity |]. simpl. rewrite Hnan. apply sub_nan_l.
Qed.

(** ** The rate limiter *)

Lemma dict_get_set_same {A} (k : string) (v : A) (d : list (string * A)) :
  dict_get k (dict_set k v d) = Some v.
Proof.
  induction d as [|[k' v'] d IH]; simpl.
  - rewrite String.eqb_refl. reflexivity.
  - destruct (String.eqb k k') eqn:Hk; simpl.
    + rewrite String.eqb_refl. reflexivity.
    + rewrite Hk. exact IH.
Qed.

Lemma dict_get_set_other {A} (k k' : string) (v : A) (d : list (string * A)) :
  k' <> k -> dict_get k' (dict_set k v d) = dict_get k' d.
Proof.
  intros Hne. induction d as [|[k0 v0] d IH]; simpl.
  - apply String.eqb_neq in Hne. rewrite Hne. reflexivity.
  - destruct (String.eqb k k0) eqn:Hk; simpl.
    + apply String.eqb_eq in Hk. subst k0.
      apply String.eqb_neq in Hne. rewrite Hne. reflexivity.
    + destruct (String.eqb k' k0); [reflexivity | exact IH].
Qed.

Lemma filter_all {A} (f : A -> bool) (l : list A) :
  Forall (fun x => f x = true) l -> filter f l = l.
Proof.
  induction 1 as [|x l Hx _ IH]; simpl; [reflexivity |].
  rewrite Hx, IH. reflexivity.
Qed.

Lemma filter_none {A} (f : A -> bool) (l : list A) :
  Forall (fun x => f x = false) l -> filter f l = [].
Proof.
  induction 1 as [|x l Hx _ IH]; simpl; [reflexivity |].
  rewrite Hx, IH. reflexivity.
Qed.

(** What a call does, in terms of the client's stored timestamps. *)
Lemma call_outcome (self : SimpleRateLimiter.t) (client_ip : string) (now : float) :
  let kept := SimpleRateLimiter.valid self now (stored self client_ip) in
  exists self',
    SimpleRateLimiter.max_calls self' = SimpleRateLimiter.max_calls self
    /\ SimpleRateLimiter.time_window self' = SimpleRateLimiter.time_window self
    /\ (forall other, other <> client_ip ->
          dict_get other (SimpleRateLimiter.client_history self')
          = dict_get other (SimpleRateLimiter.client_history self))
    /\ if (SimpleRateLimiter.max_calls self <=? Z.of_nat (List.length kept))%Z
       then (exists detail,
               SimpleRateLimiter.__call__ self client_ip now
               = (inl (HTTPException 429 detail), self'))
            /\ dict_get client_ip (SimpleRateLimiter.client_history self')
               = Some (stored self client_ip)
       else SimpleRateLimiter.__call__ self client_ip now = (inr true, self')
            /\ dict_get client_ip (SimpleRateLimiter.client_history self')
               = Some (kept ++ [now]).
Proof.
  unfold SimpleRateLimiter.__call__, stored.
  destruct (dict_get client_ip (SimpleRateLimiter.client_history self)) as [h |] eqn:Hknown.
  - rewrite Hknown. cbv zeta.
    destruct (SimpleRateLimiter.max_calls self
              <=? Z.of_nat (List.length (SimpleRateLimiter.valid self now h)))%Z.
    + exists self. repeat split; try reflexivity.
      * eexists; reflexivity.
      * exact Hknown.
    + exists (SimpleRateLimiter.set_client_history
                (dict_set client_ip (SimpleRateLimiter.valid self now h ++ [now])
                   (SimpleRateLimiter.client_history self)) self).
      split; [reflexivity |]. split; [reflexivity |]. split; [| split].
      * intros other Hother. simpl. apply dict_get_set_other. exact Hother.
      * reflexivity.
      * simpl. apply dict_get_set_same.
  - cbn [SimpleRateLimiter.client_history SimpleRateLimiter.set_client_history].
    rewrite dict_get_set_same. cbv zeta.
    change (SimpleRateLimiter.valid
              (SimpleRateLimiter.set_client_history
                 (dict_set client_ip [] (SimpleRateLimiter.client_history self)) self)
              now [])
      with (@nil float).
    change (SimpleRateLimiter.valid self now []) with (@nil float).
    cbn [SimpleRateLimiter.max_calls SimpleRateLimiter.set_client_history].
    destruct (SimpleRateLimiter.max_calls self <=? Z.of_nat (List.length (@nil float)))%Z.
    + exists (SimpleRateLimiter.set_client_history
                (dict_set client_ip [] (SimpleRateLimiter.client_history self)) self).
      split; [reflexivity |]. split; [reflexivity |]. split; [| split].
      * intros other Hother. simpl. apply dict_get_set_other. exact Hother.
      * eexists; reflexivity.
      * simpl. apply dict_get_set_same.
    + exists (SimpleRateLimiter.set_client_history
                (dict_set client_ip ([] ++ [now])
                   (dict_set client_ip [] (SimpleRateLimiter.client_history self))) self).
      split; [reflexivity |]. split; [reflexivity |]. split; [| split].
      * intros other Hother. simpl.
        rewrite !dict_get_set_other by exact Hother. reflexivity.
      * reflexivity.
      * simpl. apply dict_get_set_same.
Qed.


(** X16: a request is let through exactly when fewer than [max_calls] of the
    client's stored timestamps are still inside the window. When it is, the
    stale timestamps are dropped and the moment of the request is appended;
    when it is refused (always with HTTP 429) it is not recorded, and the
    stored timestamps, stale ones included, stay as they were. *)
Theorem request_admitted_iff_room_in_window
    (self : SimpleRateLimiter.t) (client_ip : string) (now : float) :
  let kept := SimpleRateLimiter.valid self now (stored self client_ip) in
  let (answer, self') := SimpleRateLimiter.__call__ self client_ip now in
  (admitted answer = true
   <-> (Z.of_nat (List.length kept) < SimpleRateLimiter.max_calls self)%Z)
  /\ (admitted answer = true -> stored self' client_ip = kept ++ [now])
  /\ (admitted answer = false ->
      stored self' client_ip = stored self client_ip
      /\ exists detail, answer = inl (HTTPException 429 detail)).
Proof.
  intros kept.
  destruct (call_outcome self client_ip now) as [self1 [_ [_ [_ Hcase]]]].
  fold kept in Hcase.
  destruct (Z.leb_spec (SimpleRateLimiter.max_calls self) (Z.of_nat (List.length kept)))
    as [Hfull | Hroom].
  - destruct Hcase as [[detail Hcall] Hstored]. rewrite Hcall. simpl.
    split; [split; [discriminate | lia] |]. split; [discriminate |].
    intros _. unfold stored at 1. rewrite Hstored.
    split; [reflexivity | exists detail; reflexivity].
  - destruct Hcase as [Hcall Hstored]. rewrite Hcall. simpl.
    split; [split; [intros _; exact Hroom | reflexivity] |].
    split; [| discriminate].
    intros _. unfold stored at 1. rewrite Hstored. reflexivity.
Qed.

(** X17: a request concerns its own client only: the timestamps stored for
    every other client, and the limiter's two settings, are untouched. *)
Theorem request_leaves_other_clients_alone
    (self : SimpleRateLimiter.t) (client_ip other : string) (now : float) :
  other <> client_ip ->
  let self' := snd (SimpleRateLimiter.__call__ self client_ip now) in
  dict_get other (SimpleRateLimiter.client_history self')
  = dict_get other (SimpleRateLimiter.client_history self)
  /\ SimpleRateLimiter.max_calls self' = SimpleRateLimiter.max_calls self
  /\ SimpleRateLimiter.time_window self' = SimpleRateLimiter.time_window self.
Proof.
  intros Hother.
  destruct (call_outcome self client_ip now) as [self1 [Hmax [Hwindow [Hframe Hcase]]]].
  destruct (SimpleRateLimiter.max_calls self <=? _)%Z.
  - destruct Hcase as [[detail Hcall] _]. rewrite Hcall. simpl.
    repeat split; auto.
  - destruct Hcase as [Hcall _]. rewrite Hcall. simpl.
    repeat split; auto.
Qed.

Lemma length_valid_le (self : SimpleRateLimiter.t) (now : float) (h : list float) :
  (List.length (SimpleRateLimiter.valid self now h) <= List.length h)%nat.
Proof. unfold SimpleRateLimiter.valid. apply filter_length_le. Qed.

(** X18: the limiter never holds more than [max_calls] timestamps for a
    client (none at all when [max_calls] is negative): if that is so before a
    request, from any client at any moment, it is so after it. *)
Theorem stored_history_stays_within_max_calls
    (self : SimpleRateLimiter.t) (client_ip : string) (now : float) :
  (forall ip h, dict_get ip (SimpleRateLimiter.client_history self) = Some h ->
                (Z.of_nat (List.length h) <= Z.max 0 (SimpleRateLimiter.max_calls self))%Z) ->
  let self' := snd (SimpleRateLimiter.__call__ self client_ip now) in
  forall ip h, dict_get ip (SimpleRateLimiter.client_history self') = Some h ->
               (Z.of_nat (List.length h) <= Z.max 0 (SimpleRateLimiter.max_calls self'))%Z.
Proof.
  intros Hbound self' ip h Hh. subst self'.
  destruct (call_outcome self client_ip now) as [self1 [Hmax [_ [Hframe Hcase]]]].
  assert (Hold : (Z.of_nat (List.length (stored self client_ip))
                  <= Z.max 0 (SimpleRateLimiter.max_calls self))%Z).
  { unfold stored.
    destruct (dict_get client_ip (SimpleRateLimiter.client_history self)) as [h0 |] eqn:Hknown.
    - exact (Hbound client_ip h0 Hknown).
    - simpl. lia. }
  destruct (Z.leb_spec (SimpleRateLimiter.max_calls self)
              (Z.of_nat (List.length
                 (SimpleRateLimiter.valid self now (stored self client_ip)))))
    as [Hfull | Hroom].
  - destruct Hcase as [[detail Hcall] Hstored]. rewrite Hcall in Hh |- *.
    simpl in Hh |- *. rewrite Hmax.
    destruct (String.eqb_spec ip client_ip) as [Heq | Hne].
    + subst ip. rewrite Hstored in Hh. inversion Hh; subst h. exact Hold.
    + rewrite (Hframe ip Hne) in Hh. exact (Hbound ip h Hh).
  - destruct Hcase as [Hcall Hstored]. rewrite Hcall in Hh |- *.
    simpl in Hh |- *. rewrite Hmax.
    destruct (String.eqb_spec ip client_ip) as [Heq | Hne].
    + subst ip. rewrite Hstored in Hh. inversion Hh; subst h.
      rewrite length_app. simpl. lia.
    + rewrite (Hframe ip Hne) in Hh. exact (Hbound ip h Hh).
Qed.

(** X19: once every stored timestamp of a client has left the window, the
    client starts afresh: with [max_calls] at least 1 its next request is let
    through and the stored history is that request alone. *)
Theorem expired_history_is_forgotten
    (self : SimpleRateLimiter.t) (client_ip : string) (now : float) :
  (0 < SimpleRateLimiter.max_calls self)%Z ->
  Forall (fun t => fresh (SimpleRateLimiter.time_window self) now t = false)
         (stored self client_ip) ->
  exists self',
    SimpleRateLimiter.__call__ self client_ip now = (inr true, self')
    /\ stored self' client_ip = [now].
Proof.
  intros Hmax Hstale.
  destruct (call_outcome self client_ip now) as [self1 [_ [_ [_ Hcase]]]].
  assert (Hkept : SimpleRateLimiter.valid self now (stored self client_ip) = []).
  { unfold SimpleRateLimiter.valid. apply filter_none. exact Hstale. }
  rewrite Hkept in Hcase. simpl in Hcase.
  destruct (Z.leb_spec (SimpleRateLimiter.max_calls self) 0) as [Hfull | _]; [lia |].
  destruct Hcase as [Hcall Hstored].
  exists self1. split; [exact Hcall |]. unfold stored. rewrite Hstored. reflexivity.
Qed.


Lemma serve_within_window (client_ip : string) (n : nat) (times : list float) :
  forall (self : SimpleRateLimiter.t) (room : nat),
    SimpleRateLimiter.max_calls self = Z.of_nat n ->
    (List.length (stored self client_ip) + room = n)%nat ->
    Forall (fun now =>
              Forall (fun t => fresh (SimpleRateLimiter.time_window self) now t = true)
                     (stored self client_ip)) times ->
    within_window (SimpleRateLimiter.time_window self) times ->
    let (answers, self') := SimpleRateLimiter.serve self client_ip times in
    map admitted answers
    = repeat true (Nat.min room (List.length times))
      ++ repeat false (List.length times - room)
    /\ stored self' client_ip = stored self client_ip ++ firstn room times.
Proof.
  induction times as [|now later IH]; intros self room Hmax Hroom Hfresh Hwithin.
  - simpl. rewrite Nat.min_0_r, firstn_nil. simpl.
    split; [reflexivity | symmetry; apply app_nil_r].
  - cbn [SimpleRateLimiter.serve].
    pose proof (Forall_inv Hfresh) as Hnow.
    pose proof (Forall_inv_tail Hfresh) as Hlater.
    destruct Hwithin as [Hnext Hwithin].
    destruct (call_outcome self client_ip now)
      as [self1 [Hmax1 [Hwindow1 [_ Hcase]]]].
    assert (Hkept : SimpleRateLimiter.valid self now (stored self client_ip)
                    = stored self client_ip).
    { unfold SimpleRateLimiter.valid. apply filter_all. exact Hnow. }
    rewrite Hkept, Hmax in Hcase.
    destruct room as [|room].
    + destruct (Z.leb_spec (Z.of_nat n) (Z.of_nat (List.length (stored self client_ip))))
        as [_ | Habs]; [| lia].
      destruct Hcase as [[detail Hcall] Hstored]. rewrite Hcall.
      assert (Hsame : stored self1 client_ip = stored self client_ip)
        by (unfold stored at 1; rewrite Hstored; reflexivity).
      specialize (IH self1 0%nat).
      rewrite Hsame, Hwindow1, Hmax1 in IH.
      specialize (IH Hmax Hroom Hlater Hwithin).
      destruct (SimpleRateLimiter.serve self1 client_ip later) as [answers self'].
      destruct IH as [Hanswers Hfinal].
      split; [| exact Hfinal].
      simpl. rewrite Hanswers. simpl. rewrite Nat.sub_0_r. reflexivity.
    + destruct (Z.leb_spec (Z.of_nat n) (Z.of_nat (List.length (stored self client_ip))))
        as [Habs | _]; [lia |].
      destruct Hcase as [Hcall Hstored]. rewrite Hcall.
      assert (Hmore : stored self1 client_ip = stored self client_ip ++ [now])
        by (unfold stored at 1; rewrite Hstored; reflexivity).
      specialize (IH self1 room).
      rewrite Hmore, Hwindow1, Hmax1 in IH.
      assert (Hroom' : (List.length (stored self client_ip ++ [now]) + room = n)%nat)
        by (rewrite length_app; simpl; lia).
      assert (Hlater' : Forall (fun later_time =>
                  Forall (fun t => fresh (SimpleRateLimiter.time_window self) later_time t
                                   = true)
                         (stored self client_ip ++ [now])) later).
      { apply Forall_forall. intros later_time Hin.
        apply Forall_app. split.
        - exact (proj1 (Forall_forall _ _) Hlater later_time Hin).
        - constructor; [| constructor].
          exact (proj1 (Forall_forall _ _) Hnext later_time Hin). }
      specialize (IH Hmax Hroom' Hlater' Hwithin).
      destruct (SimpleRateLimiter.serve self1 client_ip later) as [answers self'].
      destruct IH as [Hanswers Hfinal].
      split.
      * simpl. rewrite Hanswers. reflexivity.
      * rewrite Hfinal, <- app_assoc. reflexivity.
Qed.

(** X20: requests of one client that all fall in one window, starting from no
    stored history: the first [max_calls] are let through and every one after
    them is refused; the limiter ends up holding the moments of the requests
    it let through, in order. *)
Theorem at_most_max_calls_admitted_within_a_window
    (self : SimpleRateLimiter.t) (client_ip : string) (n : nat) (times : list float) :
  SimpleRateLimiter.max_calls self = Z.of_nat n ->
  stored self client_ip = [] ->
  within_window (SimpleRateLimiter.time_window self) times ->
  let (answers, self') := SimpleRateLimiter.serve self client_ip times in
  map admitted answers
  = repeat true (Nat.min n (List.length times)) ++ repeat false (List.length times - n)
  /\ stored self' client_ip = firstn n times.
Proof.
  intros Hmax Hempty Hwithin.
  pose proof (serve_within_window client_ip n times self n Hmax) as Hserve.
  rewrite Hempty in Hserve.
  apply Hserve.
  - reflexivity.
  - apply Forall_forall. intros now _. constructor.
  - exact Hwithin.
Qed.

(** ** The event service *)

(** X21: events come back from the service in the order they were added,
    after those it already held; none is dropped, merged or reordered. *)
Theorem added_events_are_listed_in_order
    (Event : Type) (self : EventService.t Event) (events : list Event) :
  fst (EventService.get_events Event
         (fold_left (fun s e => snd (EventService.add_event Event s e)) events self))
  = EventService.db Event self ++ events.
Proof.
  revert self. induction events as [|e events IH]; intros self; simpl.
  - rewrite app_nil_r. reflexivity.
  - specialize (IH (snd (EventService.add_event Event self e))).
    simpl in IH. rewrite IH. simpl. rewrite <- app_assoc. reflexivity.
Qed.

(** ** A subscriber that is gone *)

Section GoneSubscriber.
Context `{Builtins}.

(** X22: a registered subscriber whose transport is gone costs every tick, not
    just one. For a run of ticks, each tick is still pushed into the window,
    reaches only the subscribers registered before the dead one, is logged as a
    feed error and followed by the 5-second pause; those registered behind it
    receive nothing for the whole run. *)
Theorem gone_subscriber_blocks_those_behind_it_on_every_tick
    (ticks : list (string * (float * float))) :
  forall (w : world) (rest : list Frame)
         (before : list WebSocket) (c : WebSocket) (after : list WebSocket),
    Forall (fun t => decodes_to (fst t) (fst (snd t)) (snd (snd t))) ticks ->
    binance w = map (fun t => Text (fst t)) ticks ++ rest ->
    active_connections w = before ++ c :: after ->
    forallb (alive w) before = true ->
    alive w c = false ->
    exists w',
      while_true (List.length ticks) loop_body w = (inr tt, w')
      /\ binance w' = rest
      /\ price_history w'
         = fold_left deque_append (map (fun t => fst (snd t)) ticks) (price_history w)
      /\ deliveries (sent w')
         = deliveries (sent w)
           ++ flat_map (fun t => map (fun x => (x, fst (snd t))) before) ticks
      /\ log w' = log w ++ map (fun _ => LogError "feed_error" (SendError c)) ticks
      /\ clock w' = (clock w + 5 * Z.of_nat (List.length ticks))%Z.
Proof.
  induction ticks as [|[msg [tick_price qty]] ticks IH];
    intros w rest before c after Hticks Hrecv Hconns Halive Hdead.
  - exists w. simpl. rewrite !app_nil_r, Z.add_0_r. repeat split. exact Hrecv.
  - pose proof (Forall_inv Hticks) as Hfirst.
    pose proof (Forall_inv_tail Hticks) as Hothers.
    destruct Hfirst as [members [vp [vq [Hjson [Hp [Hprice [Hq Hqty]]]]]]].
    simpl in Hjson, Hp, Hprice, Hq, Hqty, Hrecv.
    pose proof (loop_body_tick_send_fails w msg _ members vp vq tick_price qty
                  before c after Hrecv Hjson Hp Hprice Hq Hqty Hconns Halive Hdead)
      as Hround.
    match type of Hround with
    | _ = (_, ?w1) =>
        destruct (IH w1 rest before c after Hothers eq_refl Hconns Halive Hdead)
          as [w' [Hrun [Hrest [Hwindow [Hsent [Hlog Hclock]]]]]]
    end.
    exists w'. cbn [while_true List.length]. unfold bind. rewrite Hround.
    split; [exact Hrun |]. split; [exact Hrest |]. split; [exact Hwindow |].
    split; [| split].
    + rewrite Hsent. simpl sent.
      rewrite deliveries_app, deliveries_same_event, <- app_assoc. reflexivity.
    + rewrite Hlog. simpl log. rewrite <- app_assoc. reflexivity.
    + rewrite Hclock. simpl clock. lia.
Qed.
End GoneSubscriber.

(** X23: unregistering the subscriber that is gone repairs the broadcast: once
    [disconnect] has taken it out, an event reaches every remaining
    subscriber, those behind it included, and [broadcast] returns. *)
Theorem disconnect_repairs_the_broadcast
    (m : Payload) (w : world) (before : list WebSocket) (c : WebSocket)
    (after : list WebSocket) :
  active_connections w = before ++ c :: after ->
  ~ In c before ->
  forallb (alive w) (before ++ after) = true ->
  (ConnectionManager.disconnect c ;; ConnectionManager.broadcast m)%py w
  = (inr tt,
     set_sent (sent w ++ map (fun x => (x, m)) (before ++ after))
       (set_active_connections (before ++ after) w)).
Proof.
  intros Hconns Hout Halive. unfold bind at 1, ConnectionManager.disconnect.
  rewrite Hconns, (list_remove_first c before after Hout).
  rewrite broadcast_all_alive; [reflexivity | exact Halive].
Qed.

(** * The model at work

    From here on the library functions are those of [demo]. *)

#[local] Existing Instance demo.

(** *** The websocket manager *)

(** C1 fails on the specification's own scenario: with the second of three
    subscribers gone, [broadcast] raises, the third subscriber receives
    nothing and the second is still registered. *)
Lemma C1_counterexample :
  let (outcome, w') := ConnectionManager.broadcast some_event three_subscribers in
  ~ (outcome = inr tt
     /\ In (3%nat, some_event) (sent w')
     /\ ~ In 2%nat (active_connections w')).
Proof.
  vm_compute. intros [Hreturned _]. discriminate Hreturned.
Qed.

(** What [broadcast] does there. *)
Example broadcast_with_second_subscriber_gone :
  let (outcome, w') := ConnectionManager.broadcast some_event three_subscribers in
  outcome = inl (SendError 2)
  /\ sent w' = [(1%nat, some_event)]
  /\ active_connections w' = [1; 2; 3]%nat.
Proof. vm_compute. repeat split. Qed.

Lemma C1_witness :
  ConnectionManager.broadcast some_event all_up
  = (inr tt, set_sent [(1%nat, some_event); (2%nat, some_event); (3%nat, some_event)] all_up)
  /\ ConnectionManager.broadcast some_event three_subscribers
     = (inl (SendError 2), set_sent [(1%nat, some_event)] three_subscribers)
  /\ active_connections (snd (ConnectionManager.broadcast some_event three_subscribers))
     = [1; 2; 3]%nat.
Proof.
  split.
  - exact (proj1 (C1_broadcast_stops_at_first_failure some_event all_up) eq_refl).
  - exact (proj2 (C1_broadcast_stops_at_first_failure some_event three_subscribers)
             [1%nat] 2%nat [3%nat] eq_refl eq_refl eq_refl).
Defined.

(** *** The anomaly engine *)

Lemma C5_witness :
  let r := calculate_anomaly spread_window 125 in
  let z := ((125 - np_mean spread_window) / np_std spread_window)%float in
  z_score r = py_round z 2
  /\ mean_price r = py_round (np_mean spread_window) 2
  /\ (status r = PUMP_DETECTED <-> (2 <? z)%float = true)
  /\ (status r = DUMP_DETECTED <-> (z <? -2)%float = true)
  /\ (status r = NORMAL <-> (2 <? z)%float = false /\ (z <? -2)%float = false).
Proof.
  apply (C5_status_from_unrounded_z_score spread_window 125).
  - vm_compute. repeat constructor.
  - vm_compute. reflexivity.
Defined.

(** Mean 100, deviation 10, price 125: z-score 2.5, a pump. *)
Example pump_at_125 :
  calculate_anomaly spread_window 125
  = {| status := PUMP_DETECTED; z_score := 2.5; mean_price := 100 |}.
Proof. vm_compute. reflexivity. Qed.

(** At 120.04 the quotient is just above 2 and rounds to 2: the status is a
    pump although the reported z-score is not above the threshold, so the
    comparison saw the unrounded value. *)
Example comparison_precedes_rounding :
  let r := calculate_anomaly spread_window 0x1.e028f5c28f5c3p+6 in
  status r = PUMP_DETECTED /\ z_score r = 2%float /\ (2 <? z_score r)%float = false.
Proof. vm_compute. repeat split. Qed.


(** The same window in full. *)
Example identical_prices_are_scored :
  np_mean identical_prices = 0x1.199999999999bp+0%float
  /\ np_std identical_prices = 0x1p-52%float
  /\ status (calculate_anomaly identical_prices 300) = PUMP_DETECTED
  /\ status (calculate_anomaly identical_prices 0x1.199999999999ap+0) = NORMAL.
Proof. vm_compute. repeat split. Qed.


(** *** The market listener *)

(** C3 fails when a subscriber is gone: the tick's price is in the window, and
    no subscriber, not even the one that is up, has been sent its event. *)
Lemma C3_counterexample :
  let w' := snd (loop_body stalled) in
  ~ (price_history w' <> price_history stalled ->
     exists c m, In (c, m) (sent w')).
Proof.
  vm_compute. intros Hclaim.
  destruct Hclaim as [c [m []]]. discriminate.
Qed.

(** The round in full: the send to the first subscriber fails, the handler
    logs it and pauses, and the second subscriber is never tried. *)
Example round_with_first_subscriber_gone :
  let w' := snd (loop_body stalled) in
  price_history w' = [60000%float]
  /\ sent w' = []
  /\ alive stalled 2 = true
  /\ log w' = [LogError "feed_error" (SendError 1)]
  /\ clock w' = 5%Z.
Proof. vm_compute. repeat split. Qed.

Lemma C3_witness :
  (let w := receiving (trade_frame "60000.00" "1.0") in
   let w' := snd (loop_body w) in
   price_history w' = [60000%float]
   /\ (sent w' = map (fun c => (c, enriched_event w 60000 1)) [1; 2; 3]%nat
       /\ log w' = [] /\ clock w' = 0%Z))
  /\ (let w' := snd (loop_body stalled) in
      price_history w' = [60000%float]
      /\ (sent w' = []
          /\ log w' = [LogError "feed_error" (SendError 1)]
          /\ clock w' = 5%Z)).
Proof.
  split.
  - pose proof (C3_push_precedes_publish
                  (receiving (trade_frame "60000.00" "1.0"))
                  (trade_frame "60000.00" "1.0") [] trade_60000
                  (JStr "60000.00") (JStr "1.0") 60000 1) as Hthm.
    do 6 (specialize (Hthm ltac:(vm_compute; reflexivity))).
    destruct Hthm as [Hpush [_ [Hall _]]].
    specialize (Hall ltac:(vm_compute; reflexivity)).
    vm_compute in Hpush, Hall |- *. exact (conj Hpush Hall).
  - pose proof (C3_push_precedes_publish
                  stalled (trade_frame "60000.00" "1.0") [] trade_60000
                  (JStr "60000.00") (JStr "1.0") 60000 1) as Hthm.
    do 6 (specialize (Hthm ltac:(vm_compute; reflexivity))).
    destruct Hthm as [Hpush [_ [_ Hfail]]].
    specialize (Hfail [] 1%nat [2%nat]
                  ltac:(vm_compute; reflexivity) ltac:(vm_compute; reflexivity)
                  ltac:(vm_compute; reflexivity)).
    vm_compute in Hpush, Hfail |- *. exact (conj Hpush Hfail).
Defined.

(** C4 fails on a frame that has a price and no quantity: it is not dropped in
    silence, the handler logs a KeyError and pauses the feed for 5 seconds. *)
Lemma C4_counterexample :
  let w := receiving (price_only_frame "60000.00") in
  ~ (loop_body w = (inr tt, set_binance [] w)).
Proof. vm_compute. intros Hsilent. discriminate Hsilent. Qed.

(** The round in full. *)
Example round_on_price_only_frame :
  let w := receiving (price_only_frame "60000.00") in
  let w' := snd (loop_body w) in
  log w' = [LogError "feed_error" (KeyError "q")]
  /\ clock w' = 5%Z /\ price_history w' = [] /\ sent w' = [].
Proof. vm_compute. repeat split. Qed.

Lemma C4_witness :
  (let w := receiving heartbeat_frame in
   loop_body w = (inr tt, set_binance [] w))
  /\ (let w := receiving (trade_frame "60000.00" "1.0") in
      price_history (snd (loop_body w)) = [60000%float])
  /\ (let w := receiving (price_only_frame "60000.00") in
      loop_body w = (inr tt, after_feed_error (KeyError "q") (set_binance [] w))).
Proof.
  split; [| split].
  - pose proof (C4_price_key_selects_ticks
                  (receiving heartbeat_frame) heartbeat_frame []
                  [("e", JStr "ping")]) as Hthm.
    do 2 (specialize (Hthm ltac:(vm_compute; reflexivity))).
    destruct Hthm as [Hignored _].
    specialize (Hignored ltac:(vm_compute; reflexivity)).
    vm_compute in Hignored |- *. exact Hignored.
  - pose proof (C4_price_key_selects_ticks
                  (receiving (trade_frame "60000.00" "1.0"))
                  (trade_frame "60000.00" "1.0") [] trade_60000) as Hthm.
    do 2 (specialize (Hthm ltac:(vm_compute; reflexivity))).
    destruct Hthm as [_ [Htick _]].
    specialize (Htick (JStr "60000.00") (JStr "1.0") 60000%float 1%float).
    do 4 (specialize (Htick ltac:(vm_compute; reflexivity))).
    destruct Htick as [_ Hpush].
    vm_compute in Hpush |- *. exact Hpush.
  - pose proof (C4_price_key_selects_ticks
                  (receiving (price_only_frame "60000.00"))
                  (price_only_frame "60000.00") []
                  [("p", JStr "60000.00")]) as Hthm.
    do 2 (specialize (Hthm ltac:(vm_compute; reflexivity))).
    destruct Hthm as [_ [_ [Hnoq _]]].
    specialize (Hnoq (JStr "60000.00") 60000%float).
    do 3 (specialize (Hnoq ltac:(vm_compute; reflexivity))).
    vm_compute in Hnoq |- *. exact Hnoq.
Defined.

(** C2 fails on an exchange that drops the connection: however long the
    listener runs, the second connection is never opened. *)
Lemma C2_counterexample :
  ~ (exists fuel,
        exchange (snd (listen_to_crypto_market fuel flaky_exchange))
        <> [[Text (trade_frame "49999.00" "1.0")]]).
Proof.
  intros [fuel Hreopened]. apply Hreopened.
  assert (Hrun : listen_to_crypto_market fuel flaky_exchange
                 = match while_true fuel loop_body connected with
                   | (inl e, w') => (inl e, set_binance [] w')
                   | r => r
                   end) by reflexivity.
  rewrite Hrun.
  destruct (while_true_keeps_running fuel connected) as [Hgoes Hsame].
  { vm_compute. intros [Hcancel | []]. discriminate Hcancel. }
  destruct (while_true fuel loop_body connected) as [[e | []] w'];
    simpl in Hgoes, Hsame; [discriminate Hgoes | exact Hsame].
Qed.

Lemma C2_witness :
  (let w := receiving (price_only_frame "60000.00") in
   loop_body w = (inr tt, after_feed_error (KeyError "q") (set_binance [] w)))
  /\ (fst (while_true 3 loop_body garbled_then_trade) = inr tt
      /\ exchange (snd (while_true 3 loop_body garbled_then_trade))
         = exchange garbled_then_trade)
  /\ while_true 3 loop_body dropped
     = (inr tt,
        set_clock (clock dropped + 5 * Z.of_nat 3)%Z
          (set_log (log dropped ++ repeat (LogError "feed_error" ConnectionClosed) 3)
             dropped)).
Proof.
  destruct C2_errors_caught_and_read_retried_on_same_connection
    as [Hcaught [Hgoes Hdropped]].
  split; [| split].
  - exact (Hcaught (receiving (price_only_frame "60000.00")) (KeyError "q")
             (set_binance [] (receiving (price_only_frame "60000.00")))
             ltac:(vm_compute; reflexivity) ltac:(reflexivity)).
  - apply (Hgoes 3%nat garbled_then_trade).
    vm_compute. intros [Hcancel | [Hcancel | []]]; discriminate Hcancel.
  - exact (Hdropped 3%nat dropped ltac:(vm_compute; reflexivity)).
Defined.

(** The listener against an exchange that drops the connection after one
    trade: three rounds on, the first trade has been published, two rounds
    have failed on the dead connection 5 seconds apart, and the trade a second
    connection would have served is still waiting. *)
Example listener_keeps_reading_the_dead_connection :
  let (outcome, w') := listen_to_crypto_market 3 flaky_exchange in
  outcome = inr tt
  /\ price_history w' = [60000%float]
  /\ map fst (sent w') = [1; 2; 3]%nat
  /\ log w' = [LogInfo "connected_to_binance";
               LogError "feed_error" ConnectionClosed;
               LogError "feed_error" ConnectionClosed]
  /\ clock w' = 10%Z
  /\ exchange w' = [[Text (trade_frame "49999.00" "1.0")]].
Proof. vm_compute. repeat split. Qed.

(** Cancelling the task is the one thing that ends the loop. *)
Example cancellation_leaves_the_loop :
  fst (listen_to_crypto_market 3 (set_exchange [[Cancel]] all_up)) = inl CancelledError.
Proof. vm_compute. reflexivity. Qed.

Lemma C8_witness :
  let w := receiving (trade_frame "60000.00" "1.0") in
  exists frames,
    sent (snd (loop_body w)) = sent w ++ frames
    /\ Forall (fun f => volume (snd f) = (60000 * 1)%float
                        /\ (is_whale (snd f) = true <-> (50000 <? 60000 * 1)%float = true))
              frames
    /\ (forallb (alive w) (active_connections w) = true ->
        map fst frames = active_connections w).
Proof.
  exact (C8_whale_iff_volume_above_50000
           (receiving (trade_frame "60000.00" "1.0"))
           (trade_frame "60000.00" "1.0") [] trade_60000
           (JStr "60000.00") (JStr "1.0") 60000 1
           ltac:(vm_compute; reflexivity) ltac:(vm_compute; reflexivity)
           ltac:(vm_compute; reflexivity) ltac:(vm_compute; reflexivity)
           ltac:(vm_compute; reflexivity) ltac:(vm_compute; reflexivity)).
Defined.

(** Volumes 60000, 49999 and 50000: only the first is a whale. *)
Example whale_boundary :
  map (fun f => (volume (snd f), is_whale (snd f)))
      (sent (snd (loop_body (receiving (trade_frame "60000.00" "1.0")))))
  = [(60000%float, true); (60000%float, true); (60000%float, true)]
  /\ map (fun f => (volume (snd f), is_whale (snd f)))
         (sent (snd (loop_body (receiving (trade_frame "49999.00" "1.0")))))
     = [(49999%float, false); (49999%float, false); (49999%float, false)]
  /\ map (fun f => (volume (snd f), is_whale (snd f)))
         (sent (snd (loop_body (receiving (trade_frame "50000.00" "1.0")))))
     = [(50000%float, false); (50000%float, false); (50000%float, false)].
Proof. vm_compute. repeat split. Qed.

(** *** The rolling window *)

(** Pushing 1, 2, ..., 101 leaves 2, ..., 101. *)
Example window_after_101_pushes :
  pushes (map (fun n => float_of_Z (Z.of_nat n)) (seq 1 101))
  = map (fun n => float_of_Z (Z.of_nat n)) (seq 2 100).
Proof. vm_compute. reflexivity. Qed.

(** *** The trade endpoint *)

Lemma C9_witness :
  (exists detail,
     execute_trade "BUY" 2000000 idle = (inl (HTTPException 400 detail), idle))
  /\ (exists detail,
        execute_trade "SELL" 60000 idle = (inl (HTTPException 400 detail), idle)).
Proof.
  split.
  - apply (C9_rejected_trade_changes_nothing "BUY" 2000000 idle).
    left. split; [reflexivity | vm_compute; reflexivity].
  - apply (C9_rejected_trade_changes_nothing "SELL" 60000 idle).
    right. split; [reflexivity | vm_compute; reflexivity].
Defined.

Lemma C10_witness :
  let (outcome, w') := execute_trade "HOLD" 60000 idle in
  let id := (1 + Z.of_nat (List.length (trades idle)))%Z in
  portfolio w' = portfolio idle
  /\ outcome = inr {| resp_status := "executed"; trade_id := id;
                      resp_portfolio := portfolio idle |}
  /\ trades w' = trades idle ++ [{| tr_id := id; tr_type := "HOLD"; tr_price := 60000;
                                    tr_amount := amount;
                                    tr_timestamp := clock idle |}].
Proof.
  apply (C10_unknown_type_is_recorded "HOLD" 60000 idle); discriminate.
Defined.

(** A funded BUY, for comparison: the money moves and the trade is recorded. *)
Example funded_buy :
  let (outcome, w') := execute_trade "BUY" 60000 idle in
  portfolio w' = {| usd := 94000; btc := amount |}
  /\ map tr_type (trades w') = ["BUY"]
  /\ map tr_id (trades w') = [1%Z].
Proof. vm_compute. repeat split. Qed.

(** ** Further properties at work *)

Ltac run := vm_compute; reflexivity.

Lemma X1_witness :
  ConnectionManager.disconnect 9 all_up = (inl ValueError, all_up)
  /\ ConnectionManager.disconnect 2 all_up
     = (inr tt, set_active_connections ([1%nat] ++ [3%nat]) all_up)
  /\ (ConnectionManager.disconnect 2 ;; ConnectionManager.disconnect 2)%py all_up
     = (inl ValueError, set_active_connections ([1%nat] ++ [3%nat]) all_up).
Proof.
  split.
  - apply (proj1 (proj2 (disconnect_raises_iff_unregistered 9 all_up))).
    vm_compute. intros [Heq | [Heq | [Heq | []]]]; discriminate Heq.
  - apply (proj2 (proj2 (disconnect_raises_iff_unregistered 2 all_up))
             [1%nat] [3%nat]).
    + reflexivity.
    + simpl. intros [Heq | []]. discriminate Heq.
    + simpl. intros [Heq | []]. discriminate Heq.
Defined.

Lemma X2_witness :
  ConnectionManager.disconnect 2 three_subscribers
  = (inr tt, set_active_connections ([1%nat] ++ [3%nat]) three_subscribers).
Proof.
  apply (disconnect_removes_first_registration 2 three_subscribers [1%nat] [3%nat]).
  - reflexivity.
  - simpl. intros [Heq | []]. discriminate Heq.
Defined.

Lemma X3_witness :
  websocket_endpoint 7 (map IncomingText ["hello"; "again"] ++ IncomingDisconnect :: [])
                     all_up
  = (inr Ended, all_up).
Proof.
  apply (session_ended_by_disconnect_leaves_no_trace 7 ["hello"; "again"] [] all_up).
  vm_compute. intros [Heq | [Heq | [Heq | []]]]; discriminate Heq.
Defined.

Lemma X8_witness :
  fst (listen_to_crypto_market 5 cancelled_exchange) = inl CancelledError
  /\ binance (snd (listen_to_crypto_market 5 cancelled_exchange)) = [].
Proof.
  apply (cancellation_ends_the_listener 5 cancelled_exchange ["ping"]
           [Text (trade_frame "60000.00" "1.0")] []).
  - reflexivity.
  - simpl. lia.
Defined.

Lemma X9_witness :
  (List.length (price_history (snd (listen_to_crypto_market 3 flaky_exchange))) <= 100)%nat.
Proof.
  apply (listener_keeps_window_within_100 3 flaky_exchange). simpl. lia.
Defined.

Lemma two_trades_decode :
  Forall (fun t => decodes_to (fst t) (fst (snd t)) (snd (snd t))) two_trades.
Proof.
  repeat constructor.
  - exists trade_60000, (JStr "60000.00"), (JStr "1.0"). repeat split; run.
  - exists [("p", JStr "49999.00"); ("q", JStr "1.0")], (JStr "49999.00"), (JStr "1.0").
    repeat split; run.
Qed.

Lemma X10_witness :
  exists w',
    while_true 2 loop_body receiving_two = (inr tt, w')
    /\ binance w' = []
    /\ price_history w' = [60000%float; 49999%float]
    /\ deliveries (sent w')
       = [(1%nat, 60000%float); (2%nat, 60000%float); (3%nat, 60000%float);
          (1%nat, 49999%float); (2%nat, 49999%float); (3%nat, 49999%float)]
    /\ log w' = [] /\ clock w' = 0%Z.
Proof.
  exact (ticks_are_delivered_in_arrival_order two_trades receiving_two []
           two_trades_decode eq_refl eq_refl).
Defined.

Lemma X22_witness :
  exists w',
    while_true 2 loop_body blocked_two = (inr tt, w')
    /\ binance w' = []
    /\ price_history w' = [60000%float; 49999%float]
    /\ deliveries (sent w') = [(1%nat, 60000%float); (1%nat, 49999%float)]
    /\ log w' = [LogError "feed_error" (SendError 2); LogError "feed_error" (SendError 2)]
    /\ clock w' = 10%Z.
Proof.
  exact (gone_subscriber_blocks_those_behind_it_on_every_tick two_trades blocked_two []
           [1%nat] 2%nat [3%nat] two_trades_decode eq_refl eq_refl eq_refl eq_refl).
Defined.

Lemma X23_witness :
  (ConnectionManager.disconnect 2 ;; ConnectionManager.broadcast some_event)%py
    three_subscribers
  = (inr tt,
     set_sent (sent three_subscribers ++ map (fun x => (x, some_event)) ([1%nat] ++ [3%nat]))
       (set_active_connections ([1%nat] ++ [3%nat]) three_subscribers)).
Proof.
  apply (disconnect_repairs_the_broadcast some_event three_subscribers [1%nat] 2%nat [3%nat]).
  - reflexivity.
  - simpl. intros [Heq | []]. discriminate Heq.
  - reflexivity.
Defined.

Lemma X11_witness :
  exists frames,
    sent (snd (loop_body (receiving (trade_frame "60000.00" "1.0"))))
    = sent (receiving (trade_frame "60000.00" "1.0")) ++ frames
    /\ Forall (fun f => stats (snd f)
                        = {| status := CALIBRATING; z_score := 0;
                             mean_price := 60000 |}) frames.
Proof.
  destruct (warm_up_lasts_19_ticks (receiving (trade_frame "60000.00" "1.0"))
              (trade_frame "60000.00" "1.0") [] 60000 1 eq_refl)
    as [frames [Hsent [Hwarm _]]].
  - exists trade_60000, (JStr "60000.00"), (JStr "1.0"). repeat split; run.
  - exists frames. split; [exact Hsent |]. apply Hwarm. simpl. lia.
Defined.

(** With twenty prices already in the window the next event is scored. *)
Example scored_after_warm_up :
  map (fun f => status (stats (snd f)))
      (sent (snd (loop_body (set_price_history spread_window
                               (receiving (trade_frame "60000.00" "1.0"))))))
  = [PUMP_DETECTED; PUMP_DETECTED; PUMP_DETECTED].
Proof. run. Qed.

Lemma X12_witness :
  @loop_body demo_more (receiving "ping")
  = (inr tt, after_feed_error JSONDecodeError (set_binance [] (receiving "ping")))
  /\ @loop_body demo_more (receiving ok_frame)
     = (inr tt, set_binance [] (receiving ok_frame))
  /\ @loop_body demo_more (receiving pong_frame)
     = (inr tt, after_feed_error TypeError (set_binance [] (receiving pong_frame)))
  /\ @loop_body demo_more (receiving "42")
     = (inr tt, after_feed_error TypeError (set_binance [] (receiving "42"))).
Proof.
  split; [| split; [| split]].
  - apply (proj1 (@frames_that_are_no_object demo_more (receiving "ping") "ping" []
                    eq_refl)).
    run.
  - destruct (proj2 (@frames_that_are_no_object demo_more (receiving ok_frame) ok_frame []
                       eq_refl) (JStr "ok") ltac:(run) ltac:(discriminate))
      as [[_ Hignored] | [Hin _]].
    + exact Hignored.
    + exfalso. apply Hin. run.
  - destruct (proj2 (@frames_that_are_no_object demo_more (receiving pong_frame) pong_frame []
                       eq_refl) (JStr "pong") ltac:(run) ltac:(discriminate))
      as [[Hin _] | [_ Hlogged]].
    + exfalso. vm_compute in Hin. discriminate Hin.
    + exact Hlogged.
  - destruct (proj2 (@frames_that_are_no_object demo_more (receiving "42") "42" []
                       eq_refl) (JInt 42) ltac:(run) ltac:(discriminate))
      as [[Hin _] | [_ Hlogged]].
    + exfalso. vm_compute in Hin. discriminate Hin.
    + exact Hlogged.
Defined.

Lemma X15_witness :
  exists response w',
    execute_trade "BUY" 60000 poisoned = (inr response, w')
    /\ usd (portfolio w') = nan.
Proof.
  exact (proj2 (nan_price_poisons_the_dollar_balance poisoned) eq_refl 60000%float).
Defined.

Lemma X16_witness :
  stored (snd (SimpleRateLimiter.__call__ two_per_ten "10.0.0.1" 1000)) "10.0.0.1"
  = [] ++ [1000%float]
  /\ stored (snd (SimpleRateLimiter.__call__ seen_twice "10.0.0.1" 1002)) "10.0.0.1"
     = [1000%float; 1001%float]
  /\ exists detail,
       fst (SimpleRateLimiter.__call__ seen_twice "10.0.0.1" 1002)
       = inl (HTTPException 429 detail).
Proof.
  split.
  - pose proof (request_admitted_iff_room_in_window two_per_ten "10.0.0.1" 1000) as Hthm.
    cbv zeta in Hthm.
    destruct (SimpleRateLimiter.__call__ two_per_ten "10.0.0.1" 1000) as [answer self'].
    destruct Hthm as [Hiff [Hadmitted _]].
    apply Hadmitted, Hiff. run.
  - pose proof (request_admitted_iff_room_in_window seen_twice "10.0.0.1" 1002) as Hthm.
    cbv zeta in Hthm.
    destruct (SimpleRateLimiter.__call__ seen_twice "10.0.0.1" 1002) as [answer self'].
    destruct Hthm as [Hiff [_ Hrefused]].
    apply Hrefused.
    destruct (admitted answer); [| reflexivity].
    pose proof (proj1 Hiff eq_refl) as Hroom. vm_compute in Hroom. discriminate Hroom.
Defined.

(** The two calls above, run: the first is let through, the second refused. *)
Example limiter_lets_through_then_refuses :
  admitted (fst (SimpleRateLimiter.__call__ two_per_ten "10.0.0.1" 1000)) = true
  /\ fst (SimpleRateLimiter.__call__ seen_twice "10.0.0.1" 1002)
     = inl (HTTPException 429 "Rate limit exceeded. Max 2 requests per 10 seconds.").
Proof. split; run. Qed.

Lemma X17_witness :
  let self' := snd (SimpleRateLimiter.__call__ seen_twice "10.0.0.2" 1002) in
  dict_get "10.0.0.1" (SimpleRateLimiter.client_history self')
  = dict_get "10.0.0.1" (SimpleRateLimiter.client_history seen_twice)
  /\ SimpleRateLimiter.max_calls self' = SimpleRateLimiter.max_calls seen_twice
  /\ SimpleRateLimiter.time_window self' = SimpleRateLimiter.time_window seen_twice.
Proof.
  apply (request_leaves_other_clients_alone seen_twice "10.0.0.2" "10.0.0.1" 1002).
  discriminate.
Defined.

Lemma X18_witness :
  (Z.of_nat (List.length [1020%float])
   <= Z.max 0 (SimpleRateLimiter.max_calls
                 (snd (SimpleRateLimiter.__call__ seen_twice "10.0.0.1" 1020))))%Z.
Proof.
  apply (stored_history_stays_within_max_calls seen_twice "10.0.0.1" 1020)
    with (ip := "10.0.0.1").
  - intros ip h. simpl.
    destruct (String.eqb ip "10.0.0.1"); intros Hh; inversion Hh; subst; simpl; lia.
  - run.
Defined.

Lemma X19_witness :
  exists self',
    SimpleRateLimiter.__call__ seen_twice "10.0.0.1" 1020 = (inr true, self')
    /\ stored self' "10.0.0.1" = [1020%float].
Proof.
  apply (expired_history_is_forgotten seen_twice "10.0.0.1" 1020).
  - simpl. lia.
  - repeat constructor.
Defined.

Lemma X20_witness :
  let (answers, self') :=
    SimpleRateLimiter.serve two_per_ten "10.0.0.1" [1000; 1001; 1002]%float in
  map admitted answers
  = repeat true (Nat.min 2 3) ++ repeat false (3 - 2)
  /\ stored self' "10.0.0.1" = firstn 2 [1000; 1001; 1002]%float.
Proof.
  apply (at_most_max_calls_admitted_within_a_window two_per_ten "10.0.0.1" 2
           [1000; 1001; 1002]%float).
  - reflexivity.
  - reflexivity.
  - simpl. repeat split; repeat constructor.
Defined.

(** A funded BUY whose commit fails: the exception leaves the endpoint, the
    money has moved, and no trade is on record. *)
Example failed_commit_keeps_the_money_moved :
  let (outcome, w') := execute_trade_on (CommitFails OSError) "BUY" 60000 idle in
  outcome = inl OSError
  /\ portfolio w' = {| usd := 94000; btc := amount |}
  /\ trades w' = [] /\ log w' = [].
Proof. vm_compute. repeat split. Qed.
